(** * PeerWire: the signalling logic of assets/js/app.js

    A shallow embedding of the [PeerWire] class: the fields of the object, the
    page elements and the MQTT client it writes to, and the methods that drive
    the offer/answer/candidate exchange.

    The file assets/js/app.js is present in two revisions; the later one adds a
    text-chat data channel to [createPeerConnection] and is otherwise the same
    signalling code.  The later revision is the one embedded here.

    Conventions of the embedding.
    - The browser's RTCPeerConnection is a black box.  A connection is
      represented by the sequence of method calls the page has made on it,
      the handlers the page has installed, and its [connectionState]; whether a
      call fulfils or rejects, and which description [createOffer] and
      [createAnswer] produce, is decided by a [MediaTransport] that every
      statement quantifies over.
    - A method runs to completion: an [await] resolves before the next event
      is delivered to the page.  A call to an async method that is not awaited
      ([this.startCall()] in [handleSignal], [this.handleSignal(payload)] in
      the message callback) never throws into its caller; a rejection of its
      promise is recorded in [rejections].
    - A message on the room topic is either a text that [JSON.parse] rejects
      or the text of an envelope [{sender, type, data}] whose [sender] and
      [type] are strings. *)

From Stdlib Require Import String Ascii List Bool Arith Lia.
From Stdlib Require Import NArith.
Import ListNotations.
Open Scope string_scope.

(** ** JavaScript strings *)

(** A string is the sequence of its code units; the ids the page makes are
    ["user_"] followed by base-36 digits, one code unit per character.

    [x < y] on two strings (the abstract relational comparison): a string
    that has the other as a prefix is not less than it, a proper prefix is
    less, and otherwise the first differing code unit decides. *)
Fixpoint js_lt (x y : string) : bool :=
  match x, y with
  | _, EmptyString => false
  | EmptyString, String _ _ => true
  | String a x', String b y' =>
      if (nat_of_ascii a =? nat_of_ascii b)%nat then js_lt x' y'
      else (nat_of_ascii a <? nat_of_ascii b)%nat
  end.

(** [x > y] is [y < x]. *)
Definition js_gt (x y : string) : bool := js_lt y x.

(** ** Configuration *)

Record RTCConfiguration := { iceServers : list string }.

Record MqttConfig := { url : string; topicPrefix : string }.

Record Config := { mqtt : MqttConfig; rtc : RTCConfiguration }.

Definition CONFIG : Config :=
  {| mqtt := {| url := "wss://broker.hivemq.com:8884/mqtt";
                topicPrefix := "peerwire/rooms" |};
     rtc := {| iceServers := ["stun:stun.l.google.com:19302"] |} |}.

(** ** Signalling envelopes *)

(** The [data] member of an envelope: an SDP description, an ICE candidate or
    the empty object, as the JSON text it travels as.  The page never looks
    inside it. *)
Definition Data := string.

Record Signal := { sender : string; type : string; data : Data }.

(** A message body on the topic. *)
Inductive Message :=
| Malformed (raw : string)     (* JSON.parse throws on it *)
| Json (payload : Signal).     (* JSON.stringify of an envelope *)

(** ** The browser objects the page holds *)

Definition MediaStreamTrack := string.

(** The calls the page makes on a connection.  [SetRemoteDescription d] and
    [AddIceCandidate c] stand for the whole expressions
    [setRemoteDescription(new RTCSessionDescription(d))] and
    [addIceCandidate(new RTCIceCandidate(c))]. *)
Inductive PcCall :=
| CreateDataChannel (label : string)
| AddTrack (track : MediaStreamTrack)
| CreateOffer
| SetLocalDescription (d : Data)
| SetRemoteDescription (d : Data)
| CreateAnswer
| AddIceCandidate (c : Data).

Record RTCPeerConnection := {
  configuration : RTCConfiguration;
  calls : list PcCall;                (* oldest first *)
  ondatachannel : bool;
  ontrack : bool;
  onicecandidate : bool;
  onconnectionstatechange : bool;
  connectionState : string
}.

Record RTCDataChannel := {
  label : string;
  onopen : bool;
  onmessage : bool;
  onclose : bool
}.

Record MqttClient := {
  brokerUrl : string;
  mqttClientId : string;
  clean : bool;
  subscriptions : list string;
  published : list (string * Message)   (* topic, body; oldest first *)
}.

(** What the browser answers to the calls the page awaits.  Each answer may
    depend on the connection as it is when the call is made. *)
Class MediaTransport := {
  createOffer : RTCPeerConnection -> option Data;          (* None: rejects *)
  createAnswer : RTCPeerConnection -> option Data;
  setLocalDescription : RTCPeerConnection -> Data -> bool; (* false: rejects *)
  setRemoteDescription : RTCPeerConnection -> Data -> bool;
  addIceCandidate : RTCPeerConnection -> Data -> bool
}.

(** ** The page *)

Inductive JsError :=
| TypeError          (* a member of null is read *)
| SyntaxError        (* JSON.parse *)
| RtcRejected.       (* a promise of the peer connection rejects *)

Record PeerWire := {
  clientId : string;
  roomId : string;
  mqttClient : option MqttClient;
  pc : option RTCPeerConnection;
  dataChannel : option RTCDataChannel;
  localStream : option (list MediaStreamTrack);
  remoteStream : list MediaStreamTrack;
  isInitiator : bool;
  peers : list string;
  (* page elements *)
  statusIndicator : string;            (* className *)
  statusText : string;                 (* innerText *)
  roomDisplay : string;                (* innerText *)
  landingHidden : bool;
  (* the page's console and the promises nobody awaits *)
  console : list string;
  rejections : list JsError
}.

(** Field updates. *)

Definition set_mqttClient v (s : PeerWire) : PeerWire :=
  {| clientId := clientId s; roomId := roomId s; mqttClient := v; pc := pc s;
     dataChannel := dataChannel s; localStream := localStream s;
     remoteStream := remoteStream s; isInitiator := isInitiator s;
     peers := peers s; statusIndicator := statusIndicator s;
     statusText := statusText s; roomDisplay := roomDisplay s;
     landingHidden := landingHidden s; console := console s;
     rejections := rejections s |}.

Definition set_pc v (s : PeerWire) : PeerWire :=
  {| clientId := clientId s; roomId := roomId s; mqttClient := mqttClient s;
     pc := v; dataChannel := dataChannel s; localStream := localStream s;
     remoteStream := remoteStream s; isInitiator := isInitiator s;
     peers := peers s; statusIndicator := statusIndicator s;
     statusText := statusText s; roomDisplay := roomDisplay s;
     landingHidden := landingHidden s; console := console s;
     rejections := rejections s |}.

Definition set_dataChannel v (s : PeerWire) : PeerWire :=
  {| clientId := clientId s; roomId := roomId s; mqttClient := mqttClient s;
     pc := pc s; dataChannel := v; localStream := localStream s;
     remoteStream := remoteStream s; isInitiator := isInitiator s;
     peers := peers s; statusIndicator := statusIndicator s;
     statusText := statusText s; roomDisplay := roomDisplay s;
     landingHidden := landingHidden s; console := console s;
     rejections := rejections s |}.

Definition set_localStream v (s : PeerWire) : PeerWire :=
  {| clientId := clientId s; roomId := roomId s; mqttClient := mqttClient s;
     pc := pc s; dataChannel := dataChannel s; localStream := v;
     remoteStream := remoteStream s; isInitiator := isInitiator s;
     peers := peers s; statusIndicator := statusIndicator s;
     statusText := statusText s; roomDisplay := roomDisplay s;
     landingHidden := landingHidden s; console := console s;
     rejections := rejections s |}.

Definition set_remoteStream v (s : PeerWire) : PeerWire :=
  {| clientId := clientId s; roomId := roomId s; mqttClient := mqttClient s;
     pc := pc s; dataChannel := dataChannel s; localStream := localStream s;
     remoteStream := v; isInitiator := isInitiator s; peers := peers s;
     statusIndicator := statusIndicator s; statusText := statusText s;
     roomDisplay := roomDisplay s; landingHidden := landingHidden s;
     console := console s; rejections := rejections s |}.

Definition set_isInitiator v (s : PeerWire) : PeerWire :=
  {| clientId := clientId s; roomId := roomId s; mqttClient := mqttClient s;
     pc := pc s; dataChannel := dataChannel s; localStream := localStream s;
     remoteStream := remoteStream s; isInitiator := v; peers := peers s;
     statusIndicator := statusIndicator s; statusText := statusText s;
     roomDisplay := roomDisplay s; landingHidden := landingHidden s;
     console := console s; rejections := rejections s |}.

Definition set_statusIndicator v (s : PeerWire) : PeerWire :=
  {| clientId := clientId s; roomId := roomId s; mqttClient := mqttClient s;
     pc := pc s; dataChannel := dataChannel s; localStream := localStream s;
     remoteStream := remoteStream s; isInitiator := isInitiator s;
     peers := peers s; statusIndicator := v; statusText := statusText s;
     roomDisplay := roomDisplay s; landingHidden := landingHidden s;
     console := console s; rejections := rejections s |}.

Definition set_statusText v (s : PeerWire) : PeerWire :=
  {| clientId := clientId s; roomId := roomId s; mqttClient := mqttClient s;
     pc := pc s; dataChannel := dataChannel s; localStream := localStream s;
     remoteStream := remoteStream s; isInitiator := isInitiator s;
     peers := peers s; statusIndicator := statusIndicator s; statusText := v;
     roomDisplay := roomDisplay s; landingHidden := landingHidden s;
     console := console s; rejections := rejections s |}.

Definition set_roomDisplay v (s : PeerWire) : PeerWire :=
  {| clientId := clientId s; roomId := roomId s; mqttClient := mqttClient s;
     pc := pc s; dataChannel := dataChannel s; localStream := localStream s;
     remoteStream := remoteStream s; isInitiator := isInitiator s;
     peers := peers s; statusIndicator := statusIndicator s;
     statusText := statusText s; roomDisplay := v;
     landingHidden := landingHidden s; console := console s;
     rejections := rejections s |}.

Definition set_landingHidden v (s : PeerWire) : PeerWire :=
  {| clientId := clientId s; roomId := roomId s; mqttClient := mqttClient s;
     pc := pc s; dataChannel := dataChannel s; localStream := localStream s;
     remoteStream := remoteStream s; isInitiator := isInitiator s;
     peers := peers s; statusIndicator := statusIndicator s;
     statusText := statusText s; roomDisplay := roomDisplay s;
     landingHidden := v; console := console s;
     rejections := rejections s |}.

Definition set_console v (s : PeerWire) : PeerWire :=
  {| clientId := clientId s; roomId := roomId s; mqttClient := mqttClient s;
     pc := pc s; dataChannel := dataChannel s; localStream := localStream s;
     remoteStream := remoteStream s; isInitiator := isInitiator s;
     peers := peers s; statusIndicator := statusIndicator s;
     statusText := statusText s; roomDisplay := roomDisplay s;
     landingHidden := landingHidden s; console := v;
     rejections := rejections s |}.

Definition set_rejections v (s : PeerWire) : PeerWire :=
  {| clientId := clientId s; roomId := roomId s; mqttClient := mqttClient s;
     pc := pc s; dataChannel := dataChannel s; localStream := localStream s;
     remoteStream := remoteStream s; isInitiator := isInitiator s;
     peers := peers s; statusIndicator := statusIndicator s;
     statusText := statusText s; roomDisplay := roomDisplay s;
     landingHidden := landingHidden s; console := console s;
     rejections := v |}.

Definition set_calls v (s : RTCPeerConnection) : RTCPeerConnection :=
  {| configuration := configuration s; calls := v;
     ondatachannel := ondatachannel s; ontrack := ontrack s;
     onicecandidate := onicecandidate s;
     onconnectionstatechange := onconnectionstatechange s;
     connectionState := connectionState s |}.

Definition set_ondatachannel v (s : RTCPeerConnection) : RTCPeerConnection :=
  {| configuration := configuration s; calls := calls s; ondatachannel := v;
     ontrack := ontrack s; onicecandidate := onicecandidate s;
     onconnectionstatechange := onconnectionstatechange s;
     connectionState := connectionState s |}.

Definition set_ontrack v (s : RTCPeerConnection) : RTCPeerConnection :=
  {| configuration := configuration s; calls := calls s;
     ondatachannel := ondatachannel s; ontrack := v;
     onicecandidate := onicecandidate s;
     onconnectionstatechange := onconnectionstatechange s;
     connectionState := connectionState s |}.

Definition set_onicecandidate v (s : RTCPeerConnection) : RTCPeerConnection :=
  {| configuration := configuration s; calls := calls s;
     ondatachannel := ondatachannel s; ontrack := ontrack s;
     onicecandidate := v;
     onconnectionstatechange := onconnectionstatechange s;
     connectionState := connectionState s |}.

Definition set_onconnectionstatechange v (s : RTCPeerConnection) : RTCPeerConnection :=
  {| configuration := configuration s; calls := calls s;
     ondatachannel := ondatachannel s; ontrack := ontrack s;
     onicecandidate := onicecandidate s; onconnectionstatechange := v;
     connectionState := connectionState s |}.

Definition set_connectionState v (s : RTCPeerConnection) : RTCPeerConnection :=
  {| configuration := configuration s; calls := calls s;
     ondatachannel := ondatachannel s; ontrack := ontrack s;
     onicecandidate := onicecandidate s;
     onconnectionstatechange := onconnectionstatechange s;
     connectionState := v |}.

(** ** Running a method: state and exceptions

    A method body is a function of the page that yields the page it leaves
    behind together with a completion: normal, or an exception.  What was
    written before a throw stays written. *)

Inductive Completion (A : Type) :=
| Normal (a : A)
| Throw (e : JsError).
Arguments Normal {A} a.
Arguments Throw {A} e.

Definition Js (A : Type) : Type := PeerWire -> Completion A * PeerWire.

Definition ret {A} (a : A) : Js A := fun s => (Normal a, s).

Definition throw {A} (e : JsError) : Js A := fun s => (Throw e, s).

Definition bind {A B} (m : Js A) (k : A -> Js B) : Js B :=
  fun s =>
    match m s with
    | (Normal a, s') => k a s'
    | (Throw e, s') => (Throw e, s')
    end.

Definition gets {A} (f : PeerWire -> A) : Js A := fun s => (Normal (f s), s).

Definition modify (f : PeerWire -> PeerWire) : Js unit :=
  fun s => (Normal tt, f s).

Declare Scope js_scope.
Delimit Scope js_scope with js.
Notation "x <- m ;; k" := (bind m (fun x => k))
  (at level 61, m at next level, right associativity) : js_scope.
Notation "m ;; k" := (bind m (fun _ => k))
  (at level 61, right associativity) : js_scope.
Open Scope js_scope.

(** A call to an async method whose promise is not awaited: the caller goes
    on normally whatever happens in the callee. *)
Definition detach (m : Js unit) : Js unit :=
  fun s =>
    match m s with
    | (Normal _, s') => (Normal tt, s')
    | (Throw e, s') => (Normal tt, set_rejections (rejections s' ++ [e]) s')
    end.

(** [forEach] over an array. *)
Fixpoint forEach {A} (l : list A) (f : A -> Js unit) : Js unit :=
  match l with
  | [] => ret tt
  | x :: l' => f x ;; forEach l' f
  end.

(** [console.log(a)]; several arguments are printed with a space between. *)
Definition console_log (line : string) : Js unit :=
  modify (fun s => set_console (console s ++ [line]) s).

(** Access to [this.pc]: reading a member of null throws. *)
Definition the_pc : Js RTCPeerConnection :=
  fun s =>
    match pc s with
    | Some c => (Normal c, s)
    | None => (Throw TypeError, s)
    end.

Definition update_pc (f : RTCPeerConnection -> RTCPeerConnection) : Js unit :=
  c <- the_pc ;; modify (set_pc (Some (f c))).

Definition record_call (call : PcCall) : Js unit :=
  update_pc (fun c => set_calls (calls c ++ [call]) c).

Section Methods.

Context {T : MediaTransport}.

(** The awaited calls on [this.pc].  The call is made (and recorded) first;
    the transport's answer is what the [await] yields. *)

Definition pc_createOffer : Js Data :=
  c <- the_pc ;;
  record_call CreateOffer ;;
  match createOffer c with
  | Some offer => ret offer
  | None => throw RtcRejected
  end.

Definition pc_createAnswer : Js Data :=
  c <- the_pc ;;
  record_call CreateAnswer ;;
  match createAnswer c with
  | Some answer => ret answer
  | None => throw RtcRejected
  end.

Definition pc_setLocalDescription (d : Data) : Js unit :=
  c <- the_pc ;;
  record_call (SetLocalDescription d) ;;
  if setLocalDescription c d then ret tt else throw RtcRejected.

Definition pc_setRemoteDescription (d : Data) : Js unit :=
  c <- the_pc ;;
  record_call (SetRemoteDescription d) ;;
  if setRemoteDescription c d then ret tt else throw RtcRejected.

Definition pc_addIceCandidate (d : Data) : Js unit :=
  c <- the_pc ;;
  record_call (AddIceCandidate d) ;;
  if addIceCandidate c d then ret tt else throw RtcRejected.

(** *** updateStatus(type, text) *)
Definition updateStatus (ty text : string) : Js unit :=
  modify (set_statusIndicator ty) ;;
  modify (set_statusText text).

(** The topic of the room: [`${CONFIG.mqtt.topicPrefix}/${this.roomId}/signals`]. *)
Definition signalTopic (s : PeerWire) : string :=
  topicPrefix (mqtt CONFIG) ++ "/" ++ roomId s ++ "/signals".

(** [this.mqttClient.publish(topic, body)] *)
Definition mqtt_publish (topic : string) (body : Message) : Js unit :=
  fun s =>
    match mqttClient s with
    | None => (Throw TypeError, s)
    | Some m =>
        (Normal tt,
         set_mqttClient
           (Some {| brokerUrl := brokerUrl m; mqttClientId := mqttClientId m;
                    clean := clean m; subscriptions := subscriptions m;
                    published := published m ++ [(topic, body)] |}) s)
    end.

(** [this.mqttClient.subscribe(topic)] *)
Definition mqtt_subscribe (topic : string) : Js unit :=
  fun s =>
    match mqttClient s with
    | None => (Throw TypeError, s)
    | Some m =>
        (Normal tt,
         set_mqttClient
           (Some {| brokerUrl := brokerUrl m; mqttClientId := mqttClientId m;
                    clean := clean m;
                    subscriptions := subscriptions m ++ [topic];
                    published := published m |}) s)
    end.

(** *** sendSignal(type, data) *)
Definition sendSignal (ty : string) (d : Data) : Js unit :=
  topic <- gets signalTopic ;;
  id <- gets clientId ;;
  let payload := Json {| sender := id; type := ty; data := d |} in
  mqtt_publish topic payload.

(** *** setupDataChannel(channel), on the channel held in [this.dataChannel] *)
Definition setupDataChannel (channel : RTCDataChannel) : RTCDataChannel :=
  {| label := label channel; onopen := true; onmessage := true;
     onclose := true |}.

(** *** createPeerConnection() *)
Definition createPeerConnection : Js unit :=
  existing <- gets pc ;;
  match existing with
  | Some _ => ret tt
  | None =>
      modify (set_pc (Some {| configuration := rtc CONFIG; calls := [];
                              ondatachannel := false; ontrack := false;
                              onicecandidate := false;
                              onconnectionstatechange := false;
                              connectionState := "new" |})) ;;
      initiator <- gets isInitiator ;;
      (if initiator then
         record_call (CreateDataChannel "chat") ;;
         modify (set_dataChannel
                   (Some (setupDataChannel
                            {| label := "chat"; onopen := false;
                               onmessage := false; onclose := false |})))
       else
         update_pc (set_ondatachannel true)) ;;
      stream <- gets localStream ;;
      match stream with
      | None => throw TypeError
      | Some tracks =>
          forEach tracks (fun track => record_call (AddTrack track)) ;;
          update_pc (set_ontrack true) ;;
          update_pc (set_onicecandidate true) ;;
          update_pc (set_onconnectionstatechange true)
      end
  end.

(** *** startCall() *)
Definition startCall : Js unit :=
  createPeerConnection ;;
  offer <- pc_createOffer ;;
  pc_setLocalDescription offer ;;
  sendSignal "offer" offer ;;
  updateStatus "connecting" "Calling...".

(** *** handleOffer(offer) *)
Definition handleOffer (offer : Data) : Js unit :=
  createPeerConnection ;;
  pc_setRemoteDescription offer ;;
  answer <- pc_createAnswer ;;
  pc_setLocalDescription answer ;;
  sendSignal "answer" answer.

(** *** handleAnswer(answer) *)
Definition handleAnswer (answer : Data) : Js unit :=
  pc_setRemoteDescription answer.

(** *** handleSignal(signal) *)
Definition handleSignal (signal : Signal) : Js unit :=
  let sender := sender signal in
  let type := type signal in
  let data := data signal in
  if type =? "presence" then
    id <- gets clientId ;;
    console_log ("Presence from " ++ sender ++ ". Ours: " ++ id) ;;
    if js_gt id sender then
      console_log "We are the initiator" ;;
      modify (set_isInitiator true) ;;
      detach startCall
    else
      console_log "We are the receiver" ;;
      modify (set_isInitiator false)
  else if type =? "offer" then
    handleOffer data
  else if type =? "answer" then
    handleAnswer data
  else if type =? "candidate" then
    existing <- gets pc ;;
    match existing with
    | Some _ => pc_addIceCandidate data
    | None => ret tt
    end
  else
    ret tt.

(** *** The callbacks of setupMQTT() *)

(** [this.mqttClient.on('connect', ...)] *)
Definition on_connect : Js unit :=
  id <- gets clientId ;;
  console_log ("Connected to MQTT " ++ id) ;;
  topic <- gets signalTopic ;;
  mqtt_subscribe topic ;;
  updateStatus "connecting" "Waiting for peer..." ;;
  sendSignal "presence" "{}".

(** [JSON.parse(message.toString())] *)
Definition JSON_parse (message : Message) : Js Signal :=
  match message with
  | Malformed _ => throw SyntaxError
  | Json payload => ret payload
  end.

(** [this.mqttClient.on('message', (topic, message) => ...)] *)
Definition on_message (message : Message) : Js unit :=
  payload <- JSON_parse message ;;
  id <- gets clientId ;;
  if sender payload =? id then ret tt
  else detach (handleSignal payload).

(** *** The handlers createPeerConnection() installs on [this.pc] *)

(** [remoteStream.addTrack(track)]: a stream holds a track once. *)
Definition remoteStream_addTrack (track : MediaStreamTrack) : Js unit :=
  modify (fun s =>
            if existsb (String.eqb track) (remoteStream s) then s
            else set_remoteStream (remoteStream s ++ [track]) s).

(** [pc.ontrack]; [streams] is [event.streams], each stream by its tracks. *)
Definition pc_ontrack (streams : list (list MediaStreamTrack)) : Js unit :=
  match streams with
  | [] => throw TypeError
  | first :: _ =>
      forEach first remoteStream_addTrack ;;
      updateStatus "online" "Connected"
  end.

(** [pc.onicecandidate]; [candidate] is [event.candidate], null at the end
    of gathering. *)
Definition pc_onicecandidate (candidate : option Data) : Js unit :=
  match candidate with
  | Some c => sendSignal "candidate" c
  | None => ret tt
  end.

(** [pc.onconnectionstatechange] *)
Definition pc_onconnectionstatechange : Js unit :=
  c <- the_pc ;;
  console_log ("Connection state: " ++ connectionState c) ;;
  if connectionState c =? "connected" then
    updateStatus "online" "Connected"
  else if (connectionState c =? "disconnected")
          || (connectionState c =? "failed") then
    updateStatus "disconnected" "Peer disconnected"
  else ret tt.

(** [pc.ondatachannel], installed on the receiving side only. *)
Definition pc_ondatachannel (channel : RTCDataChannel) : Js unit :=
  modify (set_dataChannel (Some (setupDataChannel channel))).

(** *** Events delivered to the page *)

Inductive Event :=
| MqttConnect
| MqttMessage (message : Message)
| Track (streams : list (list MediaStreamTrack))
| IceCandidate (candidate : option Data)
| ConnectionStateChange (state : string)
| DataChannel (channel : RTCDataChannel).

(** An event of the peer connection reaches the page only through a handler
    that has been installed on an existing connection. *)
Definition when_installed (handler : RTCPeerConnection -> bool)
    (body : Js unit) : Js unit :=
  existing <- gets pc ;;
  match existing with
  | Some c => if handler c then body else ret tt
  | None => ret tt
  end.

Definition dispatch (e : Event) : Js unit :=
  match e with
  | MqttConnect => on_connect
  | MqttMessage message => on_message message
  | Track streams => when_installed ontrack (pc_ontrack streams)
  | IceCandidate candidate =>
      when_installed onicecandidate (pc_onicecandidate candidate)
  | ConnectionStateChange state =>
      existing <- gets pc ;;
      match existing with
      | Some _ =>
          update_pc (set_connectionState state) ;;
          when_installed onconnectionstatechange pc_onconnectionstatechange
      | None => ret tt
      end
  | DataChannel channel =>
      when_installed ondatachannel (pc_ondatachannel channel)
  end.

(** The page after an event; an exception that leaves a callback is reported
    by the browser and the page goes on. *)
Definition after (e : Event) (s : PeerWire) : PeerWire := snd (dispatch e s).

Definition run (events : list Event) (s : PeerWire) : PeerWire :=
  fold_left (fun s e => after e s) events s.

(** *** The constructor and init() *)

(** [hash.substring(1)] *)
Definition substring1 (hash : string) : string :=
  match hash with
  | EmptyString => ""
  | String _ rest => rest
  end.

(** [new PeerWire()] up to the call of [this.init()]; [random] is
    [Math.random().toString(36).substr(2, 9)] and [hash] is
    [window.location.hash]. *)
Definition constructor (random hash : string) : PeerWire :=
  {| clientId := "user_" ++ random;
     roomId := substring1 hash;
     mqttClient := None;
     pc := None;
     dataChannel := None;
     localStream := None;
     remoteStream := [];
     isInitiator := false;
     peers := [];
     statusIndicator := "";
     statusText := "";
     roomDisplay := "";
     landingHidden := true;
     console := [];
     rejections := [] |}.

(** [try { body } catch (err) { handler }] *)
Definition try_catch (body : Js unit) (handler : JsError -> Js unit) : Js unit :=
  fun s =>
    match body s with
    | (Normal _, s') => (Normal tt, s')
    | (Throw e, s') => handler e s'
    end.

(** [setupMedia()]; [media] is what [getUserMedia] resolves with, or [None]
    when it rejects. *)
Definition setupMedia (media : option (list MediaStreamTrack)) : Js unit :=
  match media with
  | Some tracks => modify (set_localStream (Some tracks))
  | None => throw RtcRejected
  end.

(** [setupMQTT()] up to the registration of the two callbacks. *)
Definition setupMQTT : Js unit :=
  id <- gets clientId ;;
  modify (set_mqttClient
            (Some {| brokerUrl := url (mqtt CONFIG); mqttClientId := id;
                     clean := true; subscriptions := []; published := [] |})).

(** [init()], up to [bindEvents()], which only wires the buttons. *)
Definition init (media : option (list MediaStreamTrack)) : Js unit :=
  room <- gets roomId ;;
  if room =? "" then
    modify (set_landingHidden false)
  else
    modify (set_roomDisplay ("#" ++ room)) ;;
    updateStatus "connecting" "Joining room..." ;;
    try_catch (setupMedia media ;; setupMQTT)
      (fun _ =>
         console_log "Initialization error:" ;;
         updateStatus "disconnected" "Camera/Mic access denied").

End Methods.

(** ** Roles *)

Inductive Role := INITIATOR | RESPONDER.

Definition role (s : PeerWire) : Role :=
  if isInitiator s then INITIATOR else RESPONDER.

Definition presence_from (remoteId : string) : Signal :=
  {| sender := remoteId; type := "presence"; data := "{}" |}.

(** The role a page takes when the PRESENCE of [remoteId] reaches
    [handleSignal]. *)
Definition decide {T : MediaTransport} (s : PeerWire) (remoteId : string)
  : Role :=
  role (snd (handleSignal (presence_from remoteId) s)).

(** ** The page once it has joined a room

    What [init] leaves behind when the room is named, the camera is granted
    and the MQTT client is created; [id] is the client id. *)
Definition joined (id room : string) (tracks : list MediaStreamTrack)
  : PeerWire :=
  {| clientId := id;
     roomId := room;
     mqttClient :=
       Some {| brokerUrl := url (mqtt CONFIG); mqttClientId := id;
               clean := true; subscriptions := []; published := [] |};
     pc := None;
     dataChannel := None;
     localStream := Some tracks;
     remoteStream := [];
     isInitiator := false;
     peers := [];
     statusIndicator := "connecting";
     statusText := "Joining room...";
     roomDisplay := "#" ++ room;
     landingHidden := true;
     console := [];
     rejections := [] |}.

(** What a page has published so far. *)
Definition outbox (s : PeerWire) : list (string * Message) :=
  match mqttClient s with
  | Some m => published m
  | None => []
  end.

(** The calls made so far on the page's connection. *)
Definition pc_calls (s : PeerWire) : list PcCall :=
  match pc s with
  | Some c => calls c
  | None => []
  end.

(** The two pages of the reference scenario. *)
Definition zzz : PeerWire := joined "zzz" "room" ["audio"; "video"].
Definition aaa : PeerWire := joined "aaa" "room" ["audio"; "video"].

(** ** What a method leaves behind

    The pages that the methods produce, written as changes to the page they
    start from. *)

Definition logged (lines : list string) (s : PeerWire) : PeerWire :=
  set_console (console s ++ lines) s.

Definition with_status (ty text : string) (s : PeerWire) : PeerWire :=
  set_statusText text (set_statusIndicator ty s).

(** The envelope sendSignal builds, with the topic it goes to. *)
Definition envelope (s : PeerWire) (ty : string) (d : Data)
  : string * Message :=
  (signalTopic s, Json {| sender := clientId s; type := ty; data := d |}).

Definition having_published (ty : string) (d : Data) (s : PeerWire)
  : PeerWire :=
  match mqttClient s with
  | Some m =>
      set_mqttClient
        (Some {| brokerUrl := brokerUrl m; mqttClientId := mqttClientId m;
                 clean := clean m; subscriptions := subscriptions m;
                 published := published m ++ [envelope s ty d] |}) s
  | None => s
  end.

Definition having_subscribed (s : PeerWire) : PeerWire :=
  match mqttClient s with
  | Some m =>
      set_mqttClient
        (Some {| brokerUrl := brokerUrl m; mqttClientId := mqttClientId m;
                 clean := clean m;
                 subscriptions := subscriptions m ++ [signalTopic s];
                 published := published m |}) s
  | None => s
  end.

Definition having_called (cs : list PcCall) (s : PeerWire) : PeerWire :=
  match pc s with
  | Some c => set_pc (Some (set_calls (calls c ++ cs) c)) s
  | None => s
  end.

Definition in_state (state : string) (s : PeerWire) : PeerWire :=
  match pc s with
  | Some c => set_pc (Some (set_connectionState state c)) s
  | None => s
  end.

(** The page that createPeerConnection makes of a page without a
    connection whose local stream has the given tracks. *)
Definition opened (tracks : list MediaStreamTrack) (s : PeerWire) : PeerWire :=
  set_pc
    (Some {| configuration := rtc CONFIG;
             calls := (if isInitiator s then [CreateDataChannel "chat"] else [])
                      ++ map AddTrack tracks;
             ondatachannel := negb (isInitiator s);
             ontrack := true;
             onicecandidate := true;
             onconnectionstatechange := true;
             connectionState := "new" |})
    (if isInitiator s
     then set_dataChannel
            (Some {| label := "chat"; onopen := true; onmessage := true;
                     onclose := true |}) s
     else s).

Definition with_connection (s : PeerWire) : PeerWire :=
  match pc s, localStream s with
  | None, Some tracks => opened tracks s
  | _, _ => s
  end.

(** The envelopes of the four kinds, as a peer sends them. *)
Definition offer_from (remoteId : string) (d : Data) : Signal :=
  {| sender := remoteId; type := "offer"; data := d |}.

Definition answer_from (remoteId : string) (d : Data) : Signal :=
  {| sender := remoteId; type := "answer"; data := d |}.

Definition candidate_from (remoteId : string) (d : Data) : Signal :=
  {| sender := remoteId; type := "candidate"; data := d |}.

(** Candidates of one peer, delivered one after the other. *)
Definition candidate_events (from : string) (cs : list Data) : list Event :=
  map (fun c => MqttMessage (Json (candidate_from from c))) cs.

(** ** A transport that accepts every call *)

Class Cooperative (T : MediaTransport) : Prop := {
  offer_made : forall c, exists offer, createOffer c = Some offer;
  answer_made : forall c, exists answer, createAnswer c = Some answer;
  local_applied : forall c d, setLocalDescription c d = true;
  remote_applied : forall c d, setRemoteDescription c d = true;
  candidate_added : forall c d, addIceCandidate c d = true
}.

(** One such transport: its descriptions are numbered by the calls made on
    the connection before them. *)
Definition numbered (kind : string) (c : RTCPeerConnection) : Data :=
  kind ++ "#" ++ String (ascii_of_nat (48 + length (calls c))) "".

Definition accepting : MediaTransport :=
  {| createOffer := fun c => Some (numbered "offer" c);
     createAnswer := fun c => Some (numbered "answer" c);
     setLocalDescription := fun _ _ => true;
     setRemoteDescription := fun _ _ => true;
     addIceCandidate := fun _ _ => true |}.

(** A transport that refuses a candidate as long as no remote description has
    been set, and a remote offer after a local one. *)
Definition is_remote (call : PcCall) : bool :=
  match call with
  | SetRemoteDescription _ => true
  | _ => false
  end.

Definition is_local (call : PcCall) : bool :=
  match call with
  | SetLocalDescription _ => true
  | _ => false
  end.

Definition strict : MediaTransport :=
  {| createOffer := fun c => Some (numbered "offer" c);
     createAnswer := fun c => Some (numbered "answer" c);
     setLocalDescription := fun _ _ => true;
     setRemoteDescription := fun c d =>
       negb (existsb is_local (calls c) && prefix "offer" d);
     addIceCandidate := fun c _ => existsb is_remote (calls c) |}.

(** Pages of the examples, under the accepting transport: [zzz] once its
    MQTT client has connected, and once it has taken the PRESENCE of ["aaa"];
    [aaa] once its MQTT client has connected. *)
Definition zzz_connected : PeerWire :=
  Eval vm_compute in @after accepting MqttConnect zzz.

Definition zzz_calling : PeerWire :=
  Eval vm_compute in
    @after accepting (MqttMessage (Json (presence_from "aaa"))) zzz_connected.

Definition aaa_connected : PeerWire :=
  Eval vm_compute in @after accepting MqttConnect aaa.

(** ** Two pages and the relay between them *)

Record Room := { agentA : PeerWire; agentB : PeerWire }.

Section Relay.

Context {T : MediaTransport}.

(** The relay hands a message to the subscribers of its topic. *)
Definition receive (m : string * Message) (s : PeerWire) : PeerWire :=
  match mqttClient s with
  | Some c =>
      if existsb (String.eqb (fst m)) (subscriptions c)
      then after (MqttMessage (snd m)) s
      else s
  | None => s
  end.

Definition broadcast (m : string * Message) (r : Room) : Room :=
  {| agentA := receive m (agentA r); agentB := receive m (agentB r) |}.

Inductive RoomStep :=
| AtA (e : Event)          (* an event at the first page *)
| AtB (e : Event)          (* an event at the second page *)
| RelayA (k : nat)         (* the k-th message the first page published *)
| RelayB (k : nat).        (* the k-th message the second page published *)

Definition room_step (r : Room) (step : RoomStep) : Room :=
  match step with
  | AtA e => {| agentA := after e (agentA r); agentB := agentB r |}
  | AtB e => {| agentA := agentA r; agentB := after e (agentB r) |}
  | RelayA k =>
      match nth_error (outbox (agentA r)) k with
      | Some m => broadcast m r
      | None => r
      end
  | RelayB k =>
      match nth_error (outbox (agentB r)) k with
      | Some m => broadcast m r
      | None => r
      end
  end.

Definition room_run (steps : list RoomStep) (r : Room) : Room :=
  fold_left room_step steps r.

(** Both pages connect, then every message is relayed in the order it was
    published, then each transport reports [connected]. *)
Definition two_party_schedule : list RoomStep :=
  [ AtA MqttConnect; AtB MqttConnect;
    RelayA 0; RelayB 0; RelayA 1; RelayB 1;
    AtA (ConnectionStateChange "connected");
    AtB (ConnectionStateChange "connected") ].

End Relay.

(** ** Text chat over the data channel

    The chat panel of the page: the three handlers of [setupDataChannel],
    [sendMessage] and [appendMessage].  The page of this part is the
    [PeerWire] object together with the elements and the channel state those
    methods read and write. *)

(** [String.prototype.trim] removes white space and line terminators from
    both ends; among the code units below 256 these are TAB, LF, VT, FF, CR,
    SP and NBSP. *)
Definition is_white_space (c : ascii) : bool :=
  let n := nat_of_ascii c in
  ((n =? 9) || (n =? 10) || (n =? 11) || (n =? 12) || (n =? 13)
   || (n =? 32) || (n =? 160))%nat.

Fixpoint trimStart (s : string) : string :=
  match s with
  | EmptyString => EmptyString
  | String c rest => if is_white_space c then trimStart rest else s
  end.

Fixpoint trimEnd (s : string) : string :=
  match s with
  | EmptyString => EmptyString
  | String c rest =>
      match trimEnd rest with
      | EmptyString =>
          if is_white_space c then EmptyString else String c EmptyString
      | kept => String c kept
      end
  end.

Definition trim (s : string) : string := trimEnd (trimStart s).

(** The object [sendMessage] sends. *)
Record ChatMessage := { text : string; timestamp : N }.

(** What travels on the channel: [JSON.stringify] of such an object, or a
    text that [JSON.parse] rejects. *)
Inductive ChannelData :=
| Garbled (raw : string)
| Stringified (message : ChatMessage).

(** A child of [#chat-messages] as [appendMessage] builds it: its class name
    and the three values its [innerHTML] template is filled with, [text],
    [sender] and [timestamp].  The template inserts them as they are. *)
Record MessageDiv := {
  className : string;
  html_text : string;
  html_sender : string;
  html_timestamp : string
}.

(** The clock, read when a handler runs: [Date.now()] and
    [new Date().toLocaleTimeString([], ...)]. *)
Record Instant := { Date_now : N; toLocaleTimeString : string }.

Record ChatPage := {
  this : PeerWire;
  chatInput : string;                 (* value *)
  chatMessages : list MessageDiv;     (* children, oldest first *)
  readyState : string;                (* of this.dataChannel *)
  sent : list ChannelData             (* what dataChannel.send was given *)
}.

Definition set_this v (p : ChatPage) : ChatPage :=
  {| this := v; chatInput := chatInput p; chatMessages := chatMessages p;
     readyState := readyState p; sent := sent p |}.

Definition set_chatInput v (p : ChatPage) : ChatPage :=
  {| this := this p; chatInput := v; chatMessages := chatMessages p;
     readyState := readyState p; sent := sent p |}.

Definition set_chatMessages v (p : ChatPage) : ChatPage :=
  {| this := this p; chatInput := chatInput p; chatMessages := v;
     readyState := readyState p; sent := sent p |}.

Definition set_readyState v (p : ChatPage) : ChatPage :=
  {| this := this p; chatInput := chatInput p; chatMessages := chatMessages p;
     readyState := v; sent := sent p |}.

Definition set_sent v (p : ChatPage) : ChatPage :=
  {| this := this p; chatInput := chatInput p; chatMessages := chatMessages p;
     readyState := readyState p; sent := v |}.

(** *** appendMessage(sender, text, isLocal, isSystem = false)

    The new line is appended; the scroll position of the panel is layout
    and is not kept here. *)
Definition appendMessage (sender text : string) (isLocal isSystem : bool)
    (t : Instant) (p : ChatPage) : ChatPage :=
  let messageDiv :=
    {| className := "message " ++ (if isLocal then "local" else "remote")
                    ++ " " ++ (if isSystem then "system" else "");
       html_text := text;
       html_sender := sender;
       html_timestamp := toLocaleTimeString t |} in
  set_chatMessages (chatMessages p ++ [messageDiv]) p.

(** *** sendMessage() *)
Definition sendMessage (t : Instant) (p : ChatPage) : ChatPage :=
  let text := trim (chatInput p) in
  match dataChannel (this p) with
  | Some _ =>
      if negb (text =? "") && (readyState p =? "open") then
        let message := {| text := text; timestamp := Date_now t |} in
        set_chatInput ""
          (appendMessage "Me" text true false t
             (set_sent (sent p ++ [Stringified message]) p))
      else p
  | None => p
  end.

(** *** The handlers setupDataChannel() installs *)

Definition channel_onopen (t : Instant) (p : ChatPage) : ChatPage :=
  appendMessage "System" "Chat connected" false true t
    (set_this (logged ["Data channel opened"] (this p)) p).

Definition channel_onmessage (data : ChannelData) (t : Instant)
    (p : ChatPage) : Completion unit * ChatPage :=
  match data with
  | Garbled _ => (Throw SyntaxError, p)
  | Stringified message =>
      (Normal tt, appendMessage "Peer" (text message) false false t p)
  end.

Definition channel_onclose (t : Instant) (p : ChatPage) : ChatPage :=
  appendMessage "System" "Chat disconnected" false true t
    (set_this (logged ["Data channel closed"] (this p)) p).

(** *** Events of the chat panel

    The bindings of [bindEvents] ([sendBtn.onclick], [chatInput.onkeydown]),
    the user editing the input, and the events of the channel held in
    [this.dataChannel]: the browser sets [readyState] and then calls the
    handler, if one is installed. *)
Inductive ChatEvent :=
| Typed (value : string)
| SendClick (t : Instant)
| KeyDown (key : string) (t : Instant)
| ChannelOpen (t : Instant)
| ChannelMessage (data : ChannelData) (t : Instant)
| ChannelClose (t : Instant).

Definition chat_dispatch (e : ChatEvent) (p : ChatPage)
  : Completion unit * ChatPage :=
  match e with
  | Typed value => (Normal tt, set_chatInput value p)
  | SendClick t => (Normal tt, sendMessage t p)
  | KeyDown key t =>
      if key =? "Enter" then (Normal tt, sendMessage t p) else (Normal tt, p)
  | ChannelOpen t =>
      match dataChannel (this p) with
      | Some channel =>
          let p' := set_readyState "open" p in
          if onopen channel then (Normal tt, channel_onopen t p')
          else (Normal tt, p')
      | None => (Normal tt, p)
      end
  | ChannelMessage data t =>
      match dataChannel (this p) with
      | Some channel =>
          if onmessage channel then channel_onmessage data t p
          else (Normal tt, p)
      | None => (Normal tt, p)
      end
  | ChannelClose t =>
      match dataChannel (this p) with
      | Some channel =>
          let p' := set_readyState "closed" p in
          if onclose channel then (Normal tt, channel_onclose t p')
          else (Normal tt, p')
      | None => (Normal tt, p)
      end
  end.

Definition chat_after (e : ChatEvent) (p : ChatPage) : ChatPage :=
  snd (chat_dispatch e p).

Definition chat_run (events : list ChatEvent) (p : ChatPage) : ChatPage :=
  fold_left (fun p e => chat_after e p) events p.

(** The chat panel of a page when it is loaded. *)
Definition chat_of (s : PeerWire) : ChatPage :=
  {| this := s; chatInput := ""; chatMessages := []; readyState := "connecting";
     sent := [] |}.

(** The texts of the lines shown as the user's own, and the texts sent. *)
Definition is_local_line (d : MessageDiv) : bool :=
  className d =? "message local ".

Definition local_texts (p : ChatPage) : list string :=
  map html_text (filter is_local_line (chatMessages p)).



(** A message as sendMessage makes them: a text that is not empty and has no
    white space at either end. *)
Definition well_sent (d : ChannelData) : Prop :=
  exists m, d = Stringified m /\ text m <> "" /\ trim (text m) = text m.

(** The event does not open the channel. *)
Definition not_opening (e : ChatEvent) : Prop :=
  match e with
  | ChannelOpen _ => False
  | _ => True
  end.

(** Pages of the examples: [aaa] once it has answered the offer of [zzz],
    and once the channel [zzz] created has reached it; the chat panels of
    [zzz] and [aaa] with an open channel, and a time of day. *)
Definition aaa_answering : PeerWire :=
  Eval vm_compute in
    @after accepting (MqttMessage (Json (offer_from "zzz" "offer#3")))
      aaa_connected.


Definition noon : Instant :=
  {| Date_now := 1700049600000; toLocaleTimeString := "12:00 PM" |}.

Definition zzz_chat : ChatPage :=
  Eval vm_compute in chat_after (ChannelOpen noon) (chat_of zzz_calling).


(** ** The media buttons

    The [toggle-mic] and [toggle-cam] handlers of [bindEvents]: the tracks
    of [this.localStream] with their [kind] and [enabled] members, and the
    class lists of the two buttons.  [track] is the track as the [PeerWire]
    object names it in its local stream. *)

Record LocalTrack := {
  track : MediaStreamTrack;
  kind : string;
  enabled : bool
}.

Record Controls := {
  stream : option (list LocalTrack);    (* this.localStream, null if denied *)
  toggle_mic : list string;             (* classList of #toggle-mic *)
  toggle_cam : list string              (* classList of #toggle-cam *)
}.

(** [getAudioTracks()] and [getVideoTracks()]: the tracks of the kind, in
    the order of the stream. *)
Definition getAudioTracks (tracks : list LocalTrack) : list LocalTrack :=
  filter (fun t => kind t =? "audio") tracks.

Definition getVideoTracks (tracks : list LocalTrack) : list LocalTrack :=
  filter (fun t => kind t =? "video") tracks.

(** The arrays hold the track objects of the stream themselves: writing
    [enabled] on the first track of a kind changes that track in the
    stream. *)
Fixpoint set_first_enabled (k : string) (v : bool) (tracks : list LocalTrack)
  : list LocalTrack :=
  match tracks with
  | [] => []
  | t :: rest =>
      if kind t =? k
      then {| track := track t; kind := kind t; enabled := v |} :: rest
      else t :: set_first_enabled k v rest
  end.

(** [classList.toggle(token, force)] *)
Definition classList_toggle (token : string) (force : bool)
    (classList : list string) : list string :=
  if force then
    if existsb (String.eqb token) classList then classList
    else (classList ++ [token])%list
  else filter (fun x => negb (x =? token)) classList.

(** [document.getElementById('toggle-mic').onclick] *)
Definition toggle_mic_onclick (c : Controls) : Completion unit * Controls :=
  match stream c with
  | None => (Throw TypeError, c)
  | Some tracks =>
      match getAudioTracks tracks with
      | [] => (Throw TypeError, c)
      | audioTrack :: _ =>
          let flipped := negb (enabled audioTrack) in
          (Normal tt,
           {| stream := Some (set_first_enabled "audio" flipped tracks);
              toggle_mic :=
                classList_toggle "inactive" (negb flipped)
                  (classList_toggle "active" flipped (toggle_mic c));
              toggle_cam := toggle_cam c |})
      end
  end.

(** [document.getElementById('toggle-cam').onclick] *)
Definition toggle_cam_onclick (c : Controls) : Completion unit * Controls :=
  match stream c with
  | None => (Throw TypeError, c)
  | Some tracks =>
      match getVideoTracks tracks with
      | [] => (Throw TypeError, c)
      | videoTrack :: _ =>
          let flipped := negb (enabled videoTrack) in
          (Normal tt,
           {| stream := Some (set_first_enabled "video" flipped tracks);
              toggle_mic := toggle_mic c;
              toggle_cam :=
                classList_toggle "inactive" (negb flipped)
                  (classList_toggle "active" flipped (toggle_cam c)) |})
      end
  end.

(** The two buttons, and the page after a click on one: an exception that
    leaves the handler is reported by the browser and the page goes on. *)
Inductive Click := ToggleMic | ToggleCam.

Definition click (b : Click) (c : Controls) : Controls :=
  match b with
  | ToggleMic => snd (toggle_mic_onclick c)
  | ToggleCam => snd (toggle_cam_onclick c)
  end.

(** The tracks of a kind in the page's stream, and the first of them, as
    [getAudioTracks()[0]] and [getVideoTracks()[0]] read it. *)
Definition tracks_of_kind (k : string) (c : Controls) : list LocalTrack :=
  match stream c with
  | Some tracks => filter (fun t => kind t =? k) tracks
  | None => []
  end.

Definition kind_of (b : Click) : string :=
  match b with
  | ToggleMic => "audio"
  | ToggleCam => "video"
  end.

Definition button (b : Click) (c : Controls) : list string :=
  match b with
  | ToggleMic => toggle_mic c
  | ToggleCam => toggle_cam c
  end.

Definition first_of_kind (k : string) (c : Controls) : option LocalTrack :=
  hd_error (tracks_of_kind k c).

(** A stream with one microphone and two cameras, all enabled, and the two
    buttons with neither class. *)
Definition studio : Controls :=
  {| stream :=
       Some [ {| track := "audio"; kind := "audio"; enabled := true |};
              {| track := "video"; kind := "video"; enabled := true |};
              {| track := "screen"; kind := "video"; enabled := true |} ];
     toggle_mic := [];
     toggle_cam := [] |}.

(** ** Predicates of the statements *)

(** A property of the page that a method keeps. *)
Definition stable {A} (P : PeerWire -> Prop) (m : Js A) : Prop :=
  forall s, P s -> P (snd (m s)).

(** Every envelope in the outbox names the page itself as its sender. *)
Definition own_outbox (s : PeerWire) : Prop :=
  forall topic signal,
    In (topic, Json signal) (outbox s) -> sender signal = clientId s.

(** The calls made on the page's connection begin with [l]. *)
Definition calls_begin (l : list PcCall) (s : PeerWire) : Prop :=
  exists rest, pc_calls s = (l ++ rest)%list.

(** The type of an envelope is none of the four that handleSignal knows. *)
Definition unknown_type (ty : string) : Prop :=
  ty <> "presence" /\ ty <> "offer" /\ ty <> "answer" /\ ty <> "candidate".

(** The type is one of the four kinds the page sends. *)
Definition known_type (ty : string) : Prop :=
  ty = "presence" \/ ty = "offer" \/ ty = "answer" \/ ty = "candidate".

(** Everything in the outbox is an envelope of a known kind, sent in the
    page's own name on the topic of its room. *)
Definition well_published (s : PeerWire) : Prop :=
  forall topic body,
    In (topic, body) (outbox s) ->
    topic = signalTopic s
    /\ exists ty d,
         known_type ty
         /\ body = Json {| sender := clientId s; type := ty; data := d |}.

(** The connection [c] is still the page's connection: same configuration,
    the calls made on it still there and in front, its handlers still
    installed. *)
Definition connection_kept (c : RTCPeerConnection) (s : PeerWire) : Prop :=
  exists c',
    pc s = Some c'
    /\ configuration c' = configuration c
    /\ (exists rest, calls c' = (calls c ++ rest)%list)
    /\ (ondatachannel c = true -> ondatachannel c' = true)
    /\ (ontrack c = true -> ontrack c' = true)
    /\ (onicecandidate c = true -> onicecandidate c' = true)
    /\ (onconnectionstatechange c = true -> onconnectionstatechange c' = true).

(** The page has its local stream; the connection it holds, if any, has its
    handlers installed and either listens for a data channel or comes with
    one; the data channel it holds, if any, has its handlers installed. *)
Definition wired (s : PeerWire) : Prop :=
  localStream s <> None
  /\ (forall c, pc s = Some c ->
        ontrack c = true /\ onicecandidate c = true
        /\ onconnectionstatechange c = true
        /\ (ondatachannel c = true \/ dataChannel s <> None))
  /\ (forall ch, dataChannel s = Some ch ->
        onopen ch = true /\ onmessage ch = true /\ onclose ch = true).

(** The tracks of a stream after [addTrack]. *)
Definition with_track (l : list MediaStreamTrack) (track : MediaStreamTrack)
  : list MediaStreamTrack :=
  if existsb (String.eqb track) l then l else (l ++ [track])%list.

(** The status line does not read Connected. *)
Definition not_connected (s : PeerWire) : Prop := statusText s <> "Connected".

(** A string that does not begin with white space. *)
Definition starts_black (s : string) : Prop :=
  match s with
  | EmptyString => True
  | String c _ => is_white_space c = false
  end.

(** * Properties *)

(** ** The order on strings *)

Lemma code_unit_inj a b : nat_of_ascii a = nat_of_ascii b -> a = b.
Proof.
  intro H.
  rewrite <- (ascii_nat_embedding a), <- (ascii_nat_embedding b).
  now rewrite H.
Qed.

Lemma js_lt_irrefl x : js_lt x x = false.
Proof.
  induction x as [|a x IH]; simpl; [reflexivity|].
  now rewrite Nat.eqb_refl.
Qed.

Lemma js_lt_total x : forall y, x <> y -> js_lt x y = negb (js_lt y x).
Proof.
  induction x as [|a x IH]; intros [|b y] Hne; simpl; try reflexivity.
  - now elim Hne.
  - rewrite (Nat.eqb_sym (nat_of_ascii b)).
    destruct (Nat.eqb_spec (nat_of_ascii a) (nat_of_ascii b)) as [E|E].
    + apply code_unit_inj in E. subst b.
      apply IH. intro; subst; now apply Hne.
    + destruct (Nat.ltb_spec (nat_of_ascii a) (nat_of_ascii b));
        destruct (Nat.ltb_spec (nat_of_ascii b) (nat_of_ascii a));
        simpl; try reflexivity; lia.
Qed.

Lemma js_gt_antisym x y : x <> y -> js_gt x y = negb (js_gt y x).
Proof. intro H. unfold js_gt. apply js_lt_total. congruence. Qed.

Lemma js_gt_irrefl x : js_gt x x = false.
Proof. apply js_lt_irrefl. Qed.

(** ** Running a method step by step *)

Lemma bind_normal {A B} (m : Js A) (k : A -> Js B) s a s' :
  m s = (Normal a, s') -> bind m k s = k a s'.
Proof. intro H. unfold bind. now rewrite H. Qed.

Lemma bind_throw {A B} (m : Js A) (k : A -> Js B) s e s' :
  m s = (Throw e, s') -> bind m k s = (Throw e, s').
Proof. intro H. unfold bind. now rewrite H. Qed.

Lemma detach_normal (m : Js unit) s s' :
  m s = (Normal tt, s') -> detach m s = (Normal tt, s').
Proof. intro H. unfold detach. now rewrite H. Qed.

Lemma detach_throw (m : Js unit) s e s' :
  m s = (Throw e, s') ->
  detach m s = (Normal tt, set_rejections (rejections s' ++ [e]) s').
Proof. intro H. unfold detach. now rewrite H. Qed.

Lemma detach_returns (m : Js unit) s : fst (detach m s) = Normal tt.
Proof. unfold detach. now destruct (m s) as [[[]|e] s']. Qed.

(** ** Properties a method keeps *)

Section Stable.

Context (P : PeerWire -> Prop).

Lemma stable_ret {A} (a : A) : stable P (ret a).
Proof. now intro. Qed.

Lemma stable_throw {A} e : stable P (@throw A e).
Proof. now intro. Qed.

Lemma stable_gets {A} (g : PeerWire -> A) : stable P (gets g).
Proof. now intro. Qed.

Lemma stable_bind {A B} (m : Js A) (k : A -> Js B) :
  stable P m -> (forall a, stable P (k a)) -> stable P (bind m k).
Proof.
  intros Hm Hk s Hs. unfold bind.
  specialize (Hm s Hs). destruct (m s) as [[a|e] s']; simpl in *.
  - now apply Hk.
  - assumption.
Qed.

Lemma stable_modify (g : PeerWire -> PeerWire) :
  (forall s, P s -> P (g s)) -> stable P (modify g).
Proof. intros H s Hs. now apply H. Qed.

Lemma stable_forEach {A} (l : list A) (body : A -> Js unit) :
  (forall a, stable P (body a)) -> stable P (forEach l body).
Proof.
  intro H. induction l as [|a l IH]; simpl.
  - apply stable_ret.
  - apply stable_bind; auto.
Qed.

Lemma stable_detach (m : Js unit) :
  (forall s e, P s -> P (set_rejections e s)) ->
  stable P m -> stable P (detach m).
Proof.
  intros Hr Hm s Hs. unfold detach.
  specialize (Hm s Hs). destruct (m s) as [[a|e] s']; simpl in *.
  - assumption.
  - now apply Hr.
Qed.

Lemma stable_try_catch (m : Js unit) (handler : JsError -> Js unit) :
  stable P m -> (forall e, stable P (handler e)) ->
  stable P (try_catch m handler).
Proof.
  intros Hm Hh s Hs. unfold try_catch.
  specialize (Hm s Hs). destruct (m s) as [[a|e] s']; simpl in *.
  - assumption.
  - now apply Hh.
Qed.

Lemma stable_the_pc : stable P the_pc.
Proof. intros s Hs. unfold the_pc. now destruct (pc s). Qed.

Lemma stable_update_pc g :
  (forall s c, P s -> P (set_pc c s)) -> stable P (update_pc g).
Proof.
  intro H. apply stable_bind; [apply stable_the_pc|].
  intro c. apply stable_modify. intros s Hs. now apply H.
Qed.

Lemma stable_mqtt_publish topic body :
  (forall s c, P s -> P (set_mqttClient c s)) ->
  stable P (mqtt_publish topic body).
Proof.
  intros H s Hs. unfold mqtt_publish. destruct (mqttClient s); simpl; auto.
Qed.

End Stable.

(** Decompose a method into its steps; what remains are the steps that
    write a field the property reads. *)
Ltac stable_step :=
  first
    [ apply stable_ret | apply stable_throw | apply stable_gets
    | apply stable_the_pc | apply stable_bind | apply stable_forEach
    | apply stable_try_catch
    | apply stable_modify; intros ? H; exact H
    | apply stable_update_pc; intros ? ? H; exact H
    | apply stable_mqtt_publish; intros ? ? H; exact H
    | apply stable_detach; [intros ? ? H; exact H|]
    | match goal with
      | |- stable _ (match ?x with _ => _ end) => destruct x
      end ].

Ltac stable_auto := repeat (intros; stable_step).

Ltac js_methods :=
  unfold handleSignal, handleOffer, handleAnswer, startCall,
    createPeerConnection, pc_createOffer, pc_createAnswer,
    pc_setLocalDescription, pc_setRemoteDescription, pc_addIceCandidate,
    updateStatus, record_call, console_log.

Section Frames.

Context {T : MediaTransport}.

Lemma startCall_keeps_isInitiator b :
  stable (fun s => isInitiator s = b) startCall.
Proof. js_methods. unfold sendSignal. stable_auto. Qed.

End Frames.

(** ** What each method does *)

(** Use an assumption on what the transport answers, whatever form the
    connection it is asked about has taken in the goal. *)
Ltac answered H :=
  lazymatch type of H with
  | ?f ?c ?d = ?v =>
      match goal with
      | |- context [f ?c' d] =>
          replace (f c' d) with v by (symmetry; exact H)
      end
  | ?f ?c = ?v =>
      match goal with
      | |- context [f ?c'] =>
          replace (f c') with v by (symmetry; exact H)
      end
  end.

(** Run a method on a page whose fields are known. *)
Ltac js_run :=
  unfold handleSignal, handleOffer, handleAnswer, startCall,
    pc_createOffer, pc_createAnswer, pc_setLocalDescription,
    pc_setRemoteDescription, pc_addIceCandidate, sendSignal, updateStatus,
    mqtt_publish, mqtt_subscribe, having_published, having_called,
    having_subscribed, in_state, with_status, logged, envelope,
    record_call, update_pc, the_pc, console_log, bind, gets, modify, ret,
    throw;
  simpl.

Lemma addTracks (tracks : list MediaStreamTrack) : forall s c,
  pc s = Some c ->
  forEach tracks (fun track => record_call (AddTrack track)) s =
  (Normal tt, set_pc (Some (set_calls (calls c ++ map AddTrack tracks) c)) s).
Proof.
  induction tracks as [|t tracks IH]; intros s c Hc; simpl.
  - unfold ret. rewrite app_nil_r. destruct s, c; simpl in *. now subst.
  - erewrite bind_normal.
    2:{ unfold record_call, update_pc. erewrite bind_normal.
        - reflexivity.
        - unfold the_pc. now rewrite Hc. }
    erewrite IH by reflexivity. simpl. now rewrite <- app_assoc.
Qed.

Lemma createPeerConnection_noop s c :
  pc s = Some c -> createPeerConnection s = (Normal tt, s).
Proof.
  intro H. unfold createPeerConnection, bind, gets. now rewrite H.
Qed.

Lemma createPeerConnection_fresh s tracks :
  pc s = None -> localStream s = Some tracks ->
  createPeerConnection s = (Normal tt, opened tracks s).
Proof.
  intros Hc Hl. unfold createPeerConnection, opened.
  unfold record_call, update_pc, the_pc, bind, gets, modify, ret, throw.
  rewrite Hc. simpl.
  destruct (isInitiator s) eqn:Hi; simpl; rewrite Hl;
    erewrite addTracks by reflexivity; reflexivity.
Qed.

Lemma createPeerConnection_effect s tracks :
  localStream s = Some tracks ->
  createPeerConnection s = (Normal tt, with_connection s).
Proof.
  intro Hl. unfold with_connection. rewrite Hl.
  destruct (pc s) as [c|] eqn:Hc.
  - now apply createPeerConnection_noop with c.
  - now apply createPeerConnection_fresh.
Qed.

Lemma with_connection_pc s tracks :
  localStream s = Some tracks -> pc (with_connection s) <> None.
Proof.
  intro Hl. unfold with_connection. rewrite Hl.
  destruct (pc s) eqn:Hc; [congruence | discriminate].
Qed.

Lemma with_connection_mqttClient s : mqttClient (with_connection s) = mqttClient s.
Proof.
  unfold with_connection, opened.
  destruct (pc s), (localStream s), (isInitiator s); reflexivity.
Qed.

Lemma with_connection_again s tracks :
  localStream s = Some tracks ->
  createPeerConnection (with_connection s) = (Normal tt, with_connection s).
Proof.
  intro Hl. destruct (pc (with_connection s)) as [c|] eqn:Hc.
  - now apply createPeerConnection_noop with c.
  - now elim (with_connection_pc s tracks Hl).
Qed.

Lemma sendSignal_effect s m ty d :
  mqttClient s = Some m ->
  sendSignal ty d s = (Normal tt, having_published ty d s).
Proof.
  intro Hm. unfold sendSignal, having_published, mqtt_publish, bind, gets.
  now rewrite Hm.
Qed.

Section Effects.

Context {T : MediaTransport}.

Lemma startCall_opens s tracks :
  localStream s = Some tracks -> startCall s = startCall (with_connection s).
Proof.
  intro Hl. unfold startCall.
  rewrite (bind_normal _ _ _ _ _ (createPeerConnection_effect s tracks Hl)).
  now rewrite (bind_normal _ _ _ _ _ (with_connection_again s tracks Hl)).
Qed.

Lemma handleOffer_opens s tracks d :
  localStream s = Some tracks ->
  handleOffer d s = handleOffer d (with_connection s).
Proof.
  intro Hl. unfold handleOffer.
  rewrite (bind_normal _ _ _ _ _ (createPeerConnection_effect s tracks Hl)).
  now rewrite (bind_normal _ _ _ _ _ (with_connection_again s tracks Hl)).
Qed.

Lemma startCall_existing s c m offer :
  pc s = Some c -> mqttClient s = Some m ->
  createOffer c = Some offer ->
  setLocalDescription (set_calls (calls c ++ [CreateOffer]) c) offer = true ->
  startCall s =
  (Normal tt,
   with_status "connecting" "Calling..."
     (having_published "offer" offer
        (having_called [CreateOffer; SetLocalDescription offer] s))).
Proof.
  intros Hc Hm Ho Hl. unfold startCall.
  rewrite (bind_normal _ _ _ _ _ (createPeerConnection_noop s c Hc)).
  destruct s; simpl in *; subst. js_run.
  answered Ho. simpl. answered Hl. simpl.
  now rewrite <- app_assoc.
Qed.

Lemma handleOffer_existing s c m d answer :
  pc s = Some c -> mqttClient s = Some m ->
  setRemoteDescription c d = true ->
  createAnswer (set_calls (calls c ++ [SetRemoteDescription d]) c)
    = Some answer ->
  setLocalDescription
    (set_calls (calls c ++ [SetRemoteDescription d; CreateAnswer]) c) answer
    = true ->
  handleOffer d s =
  (Normal tt,
   having_published "answer" answer
     (having_called
        [SetRemoteDescription d; CreateAnswer; SetLocalDescription answer] s)).
Proof.
  intros Hc Hm Hr Ha Hl. unfold handleOffer.
  rewrite (bind_normal _ _ _ _ _ (createPeerConnection_noop s c Hc)).
  destruct s; simpl in *; subst. js_run.
  answered Hr. simpl. answered Ha. simpl.
  rewrite <- app_assoc in *. simpl in *. answered Hl. simpl.
  now rewrite <- app_assoc.
Qed.

Lemma handleAnswer_existing s c d :
  pc s = Some c -> setRemoteDescription c d = true ->
  handleAnswer d s = (Normal tt, having_called [SetRemoteDescription d] s).
Proof.
  intros Hc Hr. destruct s; simpl in *; subst. js_run.
  answered Hr. reflexivity.
Qed.

Lemma on_connect_effect s m :
  mqttClient s = Some m ->
  on_connect s =
  (Normal tt,
   having_published "presence" "{}"
     (with_status "connecting" "Waiting for peer..."
        (having_subscribed
           (logged ["Connected to MQTT " ++ clientId s] s)))).
Proof.
  intro Hm. destruct s; simpl in *; subst. unfold on_connect. js_run.
  reflexivity.
Qed.

Lemma presence_at_responder s signal :
  type signal = "presence" ->
  js_gt (clientId s) (sender signal) = false ->
  handleSignal signal s =
  (Normal tt,
   set_isInitiator false
     (logged ["Presence from " ++ sender signal ++ ". Ours: " ++ clientId s;
              "We are the receiver"] s)).
Proof.
  intros Ht Hg. destruct signal as [from ty d]. simpl in *. subst ty.
  js_run. rewrite Hg. simpl. now rewrite <- app_assoc.
Qed.

Lemma presence_at_initiator s signal :
  type signal = "presence" ->
  js_gt (clientId s) (sender signal) = true ->
  handleSignal signal s =
  detach startCall
    (set_isInitiator true
       (logged ["Presence from " ++ sender signal ++ ". Ours: " ++ clientId s;
                "We are the initiator"] s)).
Proof.
  intros Ht Hg. destruct signal as [from ty d]. simpl in *. subst ty.
  js_run. rewrite Hg. simpl. now rewrite <- app_assoc.
Qed.

Lemma offer_dispatch s signal :
  type signal = "offer" -> handleSignal signal s = handleOffer (data signal) s.
Proof. intro H. unfold handleSignal. now rewrite H. Qed.

Lemma answer_dispatch s signal :
  type signal = "answer" ->
  handleSignal signal s = handleAnswer (data signal) s.
Proof. intro H. unfold handleSignal. now rewrite H. Qed.

Lemma candidate_dispatch s signal :
  type signal = "candidate" ->
  handleSignal signal s =
  match pc s with
  | Some _ => pc_addIceCandidate (data signal) s
  | None => (Normal tt, s)
  end.
Proof.
  intro H. unfold handleSignal. rewrite H. simpl.
  unfold bind, gets. now destruct (pc s).
Qed.

Lemma unknown_dispatch s signal :
  unknown_type (type signal) -> handleSignal signal s = (Normal tt, s).
Proof.
  intros (Hp & Ho & Ha & Hc). unfold handleSignal.
  apply String.eqb_neq in Hp, Ho, Ha, Hc. now rewrite Hp, Ho, Ha, Hc.
Qed.

Lemma own_message s signal :
  sender signal = clientId s -> on_message (Json signal) s = (Normal tt, s).
Proof.
  intro H. unfold on_message, bind, gets, JSON_parse, ret. simpl.
  now rewrite H, String.eqb_refl.
Qed.

Lemma foreign_message s signal :
  (sender signal =? clientId s) = false ->
  on_message (Json signal) s = detach (handleSignal signal) s.
Proof.
  intro H. unfold on_message, JSON_parse, bind, gets, ret. simpl.
  now rewrite H.
Qed.

Lemma after_own s signal :
  sender signal = clientId s -> after (MqttMessage (Json signal)) s = s.
Proof. intro H. unfold after, dispatch. now rewrite own_message. Qed.

Lemma after_foreign s signal s' :
  (sender signal =? clientId s) = false ->
  handleSignal signal s = (Normal tt, s') ->
  after (MqttMessage (Json signal)) s = s'.
Proof.
  intros Hf Hs. unfold after, dispatch.
  rewrite (foreign_message s signal Hf).
  now rewrite (detach_normal _ _ _ Hs).
Qed.

Lemma connected_effect s c :
  pc s = Some c -> onconnectionstatechange c = true ->
  dispatch (ConnectionStateChange "connected") s =
  (Normal tt,
   with_status "online" "Connected"
     (logged ["Connection state: connected"] (in_state "connected" s))).
Proof.
  intros Hc Hh. destruct s; simpl in *; subst.
  unfold when_installed, pc_onconnectionstatechange. js_run.
  now rewrite Hh.
Qed.

End Effects.

(** ** Role arbitration *)

Section Arbitration.

Context {T : MediaTransport}.

(** The role taken on a PRESENCE depends on the two ids only. *)
Lemma decide_by_order (s : PeerWire) (remoteId : string) :
  decide s remoteId =
  if js_gt (clientId s) remoteId then INITIATOR else RESPONDER.
Proof.
  unfold decide, role.
  destruct (js_gt (clientId s) remoteId) eqn:Hg.
  - rewrite (presence_at_initiator s (presence_from remoteId) eq_refl Hg).
    rewrite (stable_detach (fun s => isInitiator s = true) startCall);
      auto using startCall_keeps_isInitiator.
  - now rewrite (presence_at_responder s (presence_from remoteId) eq_refl Hg).
Qed.

(** C1. For two pages with distinct client ids, exactly one of them takes
    the role INITIATOR on the other's PRESENCE, and the other one takes
    RESPONDER: the two never both conclude INITIATOR. *)
Theorem role_arbitration_antisymmetric (a b : PeerWire) :
  clientId a <> clientId b ->
  (decide a (clientId b) = INITIATOR /\ decide b (clientId a) = RESPONDER)
  \/ (decide a (clientId b) = RESPONDER /\ decide b (clientId a) = INITIATOR).
Proof.
  intro Hne. rewrite !decide_by_order.
  rewrite (js_gt_antisym (clientId a) (clientId b) Hne).
  destruct (js_gt (clientId b) (clientId a)); simpl; auto.
Qed.

End Arbitration.

Lemma role_arbitration_antisymmetric_witness :
  clientId zzz <> clientId aaa
  /\ ((@decide accepting zzz (clientId aaa) = INITIATOR
       /\ @decide accepting aaa (clientId zzz) = RESPONDER)
      \/ (@decide accepting zzz (clientId aaa) = RESPONDER
          /\ @decide accepting aaa (clientId zzz) = INITIATOR)).
Proof.
  split.
  - simpl. discriminate.
  - apply (@role_arbitration_antisymmetric accepting). simpl. discriminate.
Defined.

(** ** Peer-connection creation *)

(** C9. Where a peer connection exists, createPeerConnection returns at once
    and leaves the whole page as it was: the connection with its recorded
    calls and handlers, the data channel, and everything else. *)
Theorem createPeerConnection_existing (s : PeerWire) (c : RTCPeerConnection) :
  pc s = Some c -> createPeerConnection s = (Normal tt, s).
Proof. apply createPeerConnection_noop. Qed.

Lemma createPeerConnection_existing_witness :
  pc zzz_calling
  = Some {| configuration := rtc CONFIG;
            calls := [CreateDataChannel "chat"; AddTrack "audio";
                      AddTrack "video"; CreateOffer;
                      SetLocalDescription "offer#3"];
            ondatachannel := false; ontrack := true;
            onicecandidate := true; onconnectionstatechange := true;
            connectionState := "new" |}
  /\ createPeerConnection zzz_calling = (Normal tt, zzz_calling).
Proof.
  split.
  - reflexivity.
  - apply (createPeerConnection_existing zzz_calling
             {| configuration := rtc CONFIG;
                calls := [CreateDataChannel "chat"; AddTrack "audio";
                          AddTrack "video"; CreateOffer;
                          SetLocalDescription "offer#3"];
                ondatachannel := false; ontrack := true;
                onicecandidate := true; onconnectionstatechange := true;
                connectionState := "new" |}).
    reflexivity.
Defined.

(** Hence no second connection is ever made: calling createPeerConnection
    again changes nothing, whatever the first call did. *)
Lemma createPeerConnection_connects (s : PeerWire) :
  pc (snd (createPeerConnection s)) <> None.
Proof.
  destruct (pc s) as [c|] eqn:Hc.
  - rewrite (createPeerConnection_noop s c Hc). simpl. congruence.
  - destruct (localStream s) as [tracks|] eqn:Hl.
    + rewrite (createPeerConnection_fresh s tracks Hc Hl). discriminate.
    + destruct s; simpl in *; subst. unfold createPeerConnection. js_run.
      match goal with
      | |- context [if ?b then _ else _] => destruct b
      end; discriminate.
Qed.

Lemma createPeerConnection_twice (s : PeerWire) :
  snd (createPeerConnection (snd (createPeerConnection s)))
  = snd (createPeerConnection s).
Proof.
  destruct (pc (snd (createPeerConnection s))) as [c|] eqn:Hc.
  - now rewrite (createPeerConnection_noop _ c Hc).
  - now elim (createPeerConnection_connects s).
Qed.

(** ** Outbound envelopes *)

(** C10. sendSignal, for every type and payload, publishes on the room's
    topic exactly one envelope, whose sender is the page's own client id (and
    throws, publishing nothing, when there is no MQTT client). *)
Theorem sendSignal_sender_is_clientId (s : PeerWire) (ty : string) (d : Data) :
  match mqttClient s with
  | Some _ =>
      fst (sendSignal ty d s) = Normal tt
      /\ clientId (snd (sendSignal ty d s)) = clientId s
      /\ outbox (snd (sendSignal ty d s)) =
         (outbox s ++
          [(signalTopic s,
            Json {| sender := clientId s; type := ty; data := d |})])%list
  | None => sendSignal ty d s = (Throw TypeError, s)
  end.
Proof.
  unfold sendSignal, bind, gets, mqtt_publish, outbox. simpl.
  destruct (mqttClient s); simpl; auto.
Qed.

(** Since every publication of the page goes through sendSignal, the
    outbox never holds an envelope with another sender. *)
Lemma sendSignal_own ty d : stable own_outbox (sendSignal ty d).
Proof.
  intros s Hs topic signal. unfold sendSignal, bind, gets, mqtt_publish.
  unfold own_outbox, outbox in *.
  destruct (mqttClient s) as [m|] eqn:Hm; simpl; [|now rewrite Hm].
  intro Hin. apply in_app_or in Hin. destruct Hin as [Hin|[Hin|[]]].
  - now apply Hs with topic.
  - now inversion Hin.
Qed.

Lemma subscribe_own topic : stable own_outbox (mqtt_subscribe topic).
Proof.
  intros s Hs. unfold mqtt_subscribe, own_outbox, outbox in *.
  destruct (mqttClient s) as [m|] eqn:Hm; simpl; [|now rewrite Hm].
  exact Hs.
Qed.

Ltac own_auto :=
  repeat (intros;
          first [ apply sendSignal_own | apply subscribe_own | stable_step ]).

Section OutboxInvariant.

Context {T : MediaTransport}.

Lemma handleSignal_own signal : stable own_outbox (handleSignal signal).
Proof. js_methods. own_auto. Qed.

Lemma dispatch_own e : stable own_outbox (dispatch e).
Proof.
  destruct e; unfold dispatch, on_connect, on_message, JSON_parse,
    when_installed, pc_ontrack, pc_onicecandidate,
    pc_onconnectionstatechange, pc_ondatachannel, remoteStream_addTrack,
    updateStatus, console_log.
  all: own_auto.
  all: try apply handleSignal_own.
  - intro track. apply stable_modify. intros s0 H. now destruct (existsb _ _).
Qed.

Theorem outbox_senders (events : list Event) (s : PeerWire) :
  own_outbox s -> own_outbox (run events s).
Proof.
  revert s. induction events as [|e events IH]; intros s Hs; simpl.
  - assumption.
  - apply IH. now apply dispatch_own.
Qed.

End OutboxInvariant.

(** ** Self-echo *)

Section SelfEcho.

Context {T : MediaTransport}.

(** C4. An envelope whose sender is the page's own client id is dropped by
    the message callback before handleSignal: the callback returns normally
    and the page is unchanged. *)
Theorem self_echo_discarded (s : PeerWire) (signal : Signal) :
  sender signal = clientId s ->
  on_message (Json signal) s = (Normal tt, s).
Proof. apply own_message. Qed.

End SelfEcho.

Lemma self_echo_discarded_witness :
  sender (offer_from "zzz" "offer#3") = clientId zzz_calling
  /\ @on_message accepting (Json (offer_from "zzz" "offer#3")) zzz_calling
     = (Normal tt, zzz_calling).
Proof.
  split.
  - reflexivity.
  - apply (@self_echo_discarded accepting). reflexivity.
Defined.

(** ** Errors of a single envelope *)

Section Containment.

Context {T : MediaTransport}.

(** C7, as the code has it. A message that is not JSON makes the message
    callback throw a SyntaxError: nothing catches it, nothing is logged, and
    the page is unchanged. An envelope whose type is none of the four kinds
    falls through the switch of handleSignal: the callback returns normally,
    nothing is logged, and the page is unchanged. *)
Theorem envelope_errors_at_dispatch (s : PeerWire) (message : Message) :
  (forall signal, message = Json signal -> unknown_type (type signal)) ->
  on_message message s =
  (match message with
   | Malformed _ => Throw SyntaxError
   | Json _ => Normal tt
   end, s).
Proof.
  intro H. destruct message as [raw|signal].
  - reflexivity.
  - specialize (H signal eq_refl).
    destruct (sender signal =? clientId s) eqn:Hs.
    + apply own_message. now apply String.eqb_eq.
    + rewrite (foreign_message s signal Hs).
      apply detach_normal. now apply unknown_dispatch.
Qed.

End Containment.

Lemma envelope_errors_at_dispatch_witness :
  (forall signal,
      Json {| sender := "aaa"; type := "bye"; data := "{}" |} = Json signal ->
      unknown_type (type signal))
  /\ @on_message accepting
       (Json {| sender := "aaa"; type := "bye"; data := "{}" |}) zzz_calling
     = (Normal tt, zzz_calling).
Proof.
  assert (H : forall signal,
             Json {| sender := "aaa"; type := "bye"; data := "{}" |}
             = Json signal -> unknown_type (type signal)).
  { intros signal E. injection E as <-. simpl.
    unfold unknown_type. repeat split; discriminate. }
  split.
  - exact H.
  - exact (@envelope_errors_at_dispatch accepting zzz_calling _ H).
Defined.

(** Against C7 as the specification words it: on a text that is not JSON
    the callback throws, and neither then nor on an unknown type is a line
    logged. *)
Lemma malformed_json_is_thrown :
  fst (@on_message accepting (Malformed "{oops") zzz_calling)
  = Throw SyntaxError
  /\ console (snd (@on_message accepting (Malformed "{oops") zzz_calling))
     = console zzz_calling
  /\ console
       (snd (@on_message accepting
               (Json {| sender := "aaa"; type := "bye"; data := "{}" |})
               zzz_calling))
     = console zzz_calling.
Proof. repeat split. Qed.

(** ** Equal ids *)

Section Collision.

Context {T : MediaTransport}.

(** C6, as the code has it. A PRESENCE whose sender is the page's own id
    raises no error. The message callback drops it as a self-echo, so the
    page is unchanged; handleSignal, handed such an envelope, takes the
    receiver's branch, since an id is not greater than itself. *)
Theorem identity_collision_is_silent (s : PeerWire) (d : Data) :
  let signal := {| sender := clientId s; type := "presence"; data := d |} in
  on_message (Json signal) s = (Normal tt, s)
  /\ handleSignal signal s =
     (Normal tt,
      set_isInitiator false
        (logged ["Presence from " ++ clientId s ++ ". Ours: " ++ clientId s;
                 "We are the receiver"] s)).
Proof.
  intro signal. split.
  - now apply own_message.
  - apply (presence_at_responder s signal eq_refl). apply js_gt_irrefl.
Qed.

End Collision.

(** Against C6 as the specification words it: with equal ids handleSignal
    completes normally and the page sides with the receiver; the message
    callback returns normally too. *)
Lemma identity_collision_raises_nothing :
  fst (@handleSignal accepting (presence_from "zzz") zzz_connected)
  = Normal tt
  /\ role (snd (@handleSignal accepting (presence_from "zzz") zzz_connected))
     = RESPONDER
  /\ @on_message accepting (Json (presence_from "zzz")) zzz_connected
     = (Normal tt, zzz_connected).
Proof. repeat split. Qed.

(** ** Candidates *)

Section Candidates.

Context {T : MediaTransport}.

(** Without a connection a candidate leaves no trace. *)
Lemma candidate_without_connection s from d :
  from <> clientId s -> pc s = None ->
  after (MqttMessage (Json (candidate_from from d))) s = s.
Proof.
  intros Hf Hc. apply after_foreign.
  - now apply String.eqb_neq.
  - rewrite candidate_dispatch by reflexivity. now rewrite Hc.
Qed.

(** With a connection it is handed to addIceCandidate at once, whatever the
    transport then answers. *)
Lemma candidate_with_connection s c from d :
  from <> clientId s -> pc s = Some c ->
  let s' := after (MqttMessage (Json (candidate_from from d))) s in
  pc s' = Some (set_calls (calls c ++ [AddIceCandidate d]) c)
  /\ clientId s' = clientId s.
Proof.
  intros Hf Hc s'. subst s'. unfold after, dispatch.
  apply String.eqb_neq in Hf.
  rewrite (foreign_message s (candidate_from from d) Hf).
  unfold detach. rewrite candidate_dispatch by reflexivity. rewrite Hc.
  destruct s; simpl in *; subst. js_run.
  destruct (addIceCandidate c d); simpl; auto.
Qed.

(** C2, as the code has it. There is no buffer of pending candidates.
    Candidates that arrive while the page has a peer connection are handed
    to addIceCandidate at once, in the order of arrival, whether or not a
    remote description has been applied; candidates that arrive while the
    page has no peer connection are dropped and leave the page unchanged. *)
Theorem candidates_applied_on_arrival (s : PeerWire) (from : string)
    (cs : list Data) :
  from <> clientId s ->
  match pc s with
  | None => run (candidate_events from cs) s = s
  | Some c =>
      pc_calls (run (candidate_events from cs) s)
      = (calls c ++ map AddIceCandidate cs)%list
  end.
Proof.
  revert s. induction cs as [|d cs IH]; intros s Hf.
  - unfold pc_calls. simpl. destruct (pc s); [now rewrite app_nil_r | easy].
  - simpl. destruct (pc s) as [c|] eqn:Hc.
    + destruct (candidate_with_connection s c from d Hf Hc) as [Hc' Hid].
      specialize (IH (after (MqttMessage (Json (candidate_from from d))) s)).
      rewrite Hc', Hid in IH. rewrite (IH Hf). simpl.
      now rewrite <- app_assoc.
    + rewrite (candidate_without_connection s from d Hf Hc).
      specialize (IH s Hf). now rewrite Hc in IH.
Qed.

End Candidates.

Lemma candidates_applied_on_arrival_witness :
  "aaa" <> clientId zzz_calling
  /\ match pc zzz_calling with
     | None =>
         @run accepting
           (candidate_events "aaa" ["candidate:1"; "candidate:2"])
           zzz_calling = zzz_calling
     | Some c =>
         pc_calls
           (@run accepting
              (candidate_events "aaa" ["candidate:1"; "candidate:2"])
              zzz_calling)
         = (calls c ++ map AddIceCandidate ["candidate:1"; "candidate:2"])%list
     end.
Proof.
  split.
  - simpl. discriminate.
  - apply (@candidates_applied_on_arrival accepting zzz_calling "aaa"
             ["candidate:1"; "candidate:2"]).
    simpl. discriminate.
Defined.

(** Against C2 as the specification words it: a candidate that reaches the
    receiving page before the offer is not kept (the page is as it was), and
    it is not among the calls made once the offer has been applied. *)
Lemma candidate_before_offer_is_lost :
  @after accepting (MqttMessage (Json (candidate_from "zzz" "candidate:1")))
    aaa_connected = aaa_connected
  /\ pc_calls
       (@run accepting
          [MqttMessage (Json (candidate_from "zzz" "candidate:1"));
           MqttMessage (Json (offer_from "zzz" "offer#3"))]
          aaa_connected)
     = [AddTrack "audio"; AddTrack "video"; SetRemoteDescription "offer#3";
        CreateAnswer; SetLocalDescription "answer#3"]
  /\ ~ In (AddIceCandidate "candidate:1")
         (pc_calls
            (@run accepting
               [MqttMessage (Json (candidate_from "zzz" "candidate:1"));
                MqttMessage (Json (offer_from "zzz" "offer#3"))]
               aaa_connected)).
Proof.
  repeat split; try reflexivity.
  vm_compute. intuition discriminate.
Qed.

(** The same message order on the calling page: the candidate is handed
    over before any remote description, and a transport that insists on
    one rejects it. *)
Example candidate_before_answer_is_rejected :
  let s := @after strict
             (MqttMessage (Json (candidate_from "aaa" "candidate:1")))
             zzz_calling in
  pc_calls s = (pc_calls zzz_calling ++ [AddIceCandidate "candidate:1"])%list
  /\ rejections s = [RtcRejected].
Proof. split; reflexivity. Qed.

(** ** A PRESENCE delivered again *)

Section RepeatedPresence.

Context {T : MediaTransport}.

(** C3, as the code has it. handleSignal keeps no record of a decided role.
    On a page whose id is not greater than the sender's, a PRESENCE only
    writes two console lines and sets isInitiator to false once more: no
    description is created and nothing is published, however often it is
    delivered. On a page whose id is greater, every PRESENCE runs startCall:
    with a connection in place and a transport that accepts the calls,
    createOffer and setLocalDescription are called again on that connection
    and one more OFFER is published. *)
Theorem repeated_presence (s : PeerWire) (signal : Signal) :
  type signal = "presence" ->
  (js_gt (clientId s) (sender signal) = false ->
   handleSignal signal s =
   (Normal tt,
    set_isInitiator false
      (logged ["Presence from " ++ sender signal ++ ". Ours: " ++ clientId s;
               "We are the receiver"] s)))
  /\ (js_gt (clientId s) (sender signal) = true ->
      forall c m offer,
        pc s = Some c -> mqttClient s = Some m ->
        createOffer c = Some offer ->
        setLocalDescription (set_calls (calls c ++ [CreateOffer]) c) offer
          = true ->
        handleSignal signal s =
        (Normal tt,
         with_status "connecting" "Calling..."
           (having_published "offer" offer
              (having_called [CreateOffer; SetLocalDescription offer]
                 (set_isInitiator true
                    (logged ["Presence from " ++ sender signal
                               ++ ". Ours: " ++ clientId s;
                             "We are the initiator"] s)))))).
Proof.
  intro Ht. split; intro Hg.
  - now apply presence_at_responder.
  - intros c m offer Hc Hm Ho Hl.
    rewrite (presence_at_initiator s signal Ht Hg).
    apply detach_normal. now apply startCall_existing with c m.
Qed.

End RepeatedPresence.

Lemma repeated_presence_witness :
  (type (presence_from "zzz") = "presence"
   /\ js_gt (clientId aaa_connected) (sender (presence_from "zzz")) = false
   /\ @handleSignal accepting (presence_from "zzz") aaa_connected =
      (Normal tt,
       set_isInitiator false
         (logged ["Presence from zzz. Ours: aaa"; "We are the receiver"]
            aaa_connected)))
  /\ (type (presence_from "aaa") = "presence"
      /\ js_gt (clientId zzz_calling) (sender (presence_from "aaa")) = true
      /\ @handleSignal accepting (presence_from "aaa") zzz_calling =
         (Normal tt,
          with_status "connecting" "Calling..."
            (having_published "offer" "offer#5"
               (having_called [CreateOffer; SetLocalDescription "offer#5"]
                  (set_isInitiator true
                     (logged ["Presence from aaa. Ours: zzz";
                              "We are the initiator"] zzz_calling)))))).
Proof.
  split; (split; [reflexivity|]); (split; [reflexivity|]).
  - apply (proj1 (@repeated_presence accepting aaa_connected
                    (presence_from "zzz") eq_refl)).
    reflexivity.
  - eapply (proj2 (@repeated_presence accepting zzz_calling
                     (presence_from "aaa") eq_refl));
      vm_compute; reflexivity.
Defined.

(** Against C3 as the specification words it: the calling page, its role
    decided and its OFFER published, creates a second description and
    publishes a second OFFER when the same PRESENCE is delivered again. *)
Lemma duplicate_presence_publishes_again :
  role zzz_calling = INITIATOR
  /\ outbox zzz_calling
     = [envelope zzz "presence" "{}"; envelope zzz "offer" "offer#3"]
  /\ outbox
       (@after accepting (MqttMessage (Json (presence_from "aaa")))
          zzz_calling)
     = [envelope zzz "presence" "{}"; envelope zzz "offer" "offer#3";
        envelope zzz "offer" "offer#5"]
  /\ pc_calls
       (@after accepting (MqttMessage (Json (presence_from "aaa")))
          zzz_calling)
     = (pc_calls zzz_calling ++ [CreateOffer; SetLocalDescription "offer#5"])%list.
Proof. repeat split. Qed.

(** ** An OFFER at the calling page *)

Section UnexpectedOffer.

Context {T : MediaTransport}.

Lemma handleOffer_keeps_console lines d :
  stable (fun s => console s = lines) (handleOffer d).
Proof. js_methods. unfold sendSignal. stable_auto. Qed.

Lemma record_call_begins l call : stable (calls_begin l) (record_call call).
Proof.
  intros s [rest Hs]. unfold calls_begin, pc_calls in *.
  unfold record_call, update_pc, the_pc, bind, modify.
  revert Hs. destruct (pc s) as [c|] eqn:Hc; simpl; intro Hs.
  - exists (rest ++ [call])%list. now rewrite Hs, app_assoc.
  - exists rest. now rewrite Hc.
Qed.

Ltac begins_auto :=
  repeat (intros; first [ apply record_call_begins | stable_step ]).

Lemma setRemoteDescription_effect s c d :
  pc s = Some c ->
  pc_setRemoteDescription d s =
  (if setRemoteDescription c d then Normal tt else Throw RtcRejected,
   having_called [SetRemoteDescription d] s).
Proof.
  intro Hc. destruct s; simpl in *; subst. js_run.
  now destruct (setRemoteDescription c d).
Qed.

Lemma handleOffer_calls s c d :
  pc s = Some c ->
  exists rest,
    pc_calls (snd (handleOffer d s))
    = (calls c ++ SetRemoteDescription d :: rest)%list.
Proof.
  intro Hc. unfold handleOffer.
  rewrite (bind_normal _ _ _ _ _ (createPeerConnection_noop s c Hc)).
  assert (H1 : calls_begin (calls c ++ [SetRemoteDescription d])
                 (having_called [SetRemoteDescription d] s)).
  { exists []. unfold pc_calls, having_called. rewrite Hc. simpl.
    now rewrite app_nil_r. }
  assert (H : calls_begin (calls c ++ [SetRemoteDescription d])
                (snd ((pc_setRemoteDescription d ;;
                       answer <- pc_createAnswer ;;
                       pc_setLocalDescription answer ;;
                       sendSignal "answer" answer) s))).
  { destruct (setRemoteDescription c d) eqn:Hr.
    - erewrite bind_normal
        by (rewrite (setRemoteDescription_effect s c d Hc), Hr; reflexivity).
      revert H1. generalize (having_called [SetRemoteDescription d] s).
      change (stable (calls_begin (calls c ++ [SetRemoteDescription d]))
                (answer <- pc_createAnswer ;;
                 pc_setLocalDescription answer ;;
                 sendSignal "answer" answer)).
      unfold pc_createAnswer, pc_setLocalDescription, sendSignal.
      begins_auto.
    - erewrite bind_throw
        by (rewrite (setRemoteDescription_effect s c d Hc), Hr; reflexivity).
      exact H1. }
  destruct H as [rest H]. exists rest. rewrite H.
  now rewrite <- app_assoc.
Qed.

(** C8, as the code has it. handleSignal does not look at the phase. An
    OFFER that reaches a page with a peer connection, in particular a page
    that has decided INITIATOR and sent its own OFFER, is handled like any
    OFFER: the connection is kept and setRemoteDescription is called on it
    with the received description; no warning is logged; and where the
    transport accepts the calls, createAnswer and setLocalDescription follow
    and an ANSWER is published. *)
Theorem offer_handled_in_every_phase (s : PeerWire) (signal : Signal)
    (c : RTCPeerConnection) (m : MqttClient) :
  type signal = "offer" -> pc s = Some c -> mqttClient s = Some m ->
  console (snd (handleSignal signal s)) = console s
  /\ (exists rest,
        pc_calls (snd (handleSignal signal s))
        = (calls c ++ SetRemoteDescription (data signal) :: rest)%list)
  /\ (forall answer,
        setRemoteDescription c (data signal) = true ->
        createAnswer
          (set_calls (calls c ++ [SetRemoteDescription (data signal)]) c)
          = Some answer ->
        setLocalDescription
          (set_calls
             (calls c ++ [SetRemoteDescription (data signal); CreateAnswer]) c)
          answer = true ->
        handleSignal signal s =
        (Normal tt,
         having_published "answer" answer
           (having_called
              [SetRemoteDescription (data signal); CreateAnswer;
               SetLocalDescription answer] s))).
Proof.
  intros Ht Hc Hm. rewrite (offer_dispatch s signal Ht). repeat split.
  - now apply handleOffer_keeps_console.
  - now apply handleOffer_calls.
  - intros answer Hr Ha Hl. now apply handleOffer_existing with c m.
Qed.

End UnexpectedOffer.

Lemma offer_handled_in_every_phase_witness :
  exists c m,
    type (offer_from "aaa" "offer#2") = "offer"
    /\ pc zzz_calling = Some c
    /\ mqttClient zzz_calling = Some m
    /\ console
         (snd (@handleSignal accepting (offer_from "aaa" "offer#2")
                 zzz_calling))
       = console zzz_calling
    /\ @handleSignal accepting (offer_from "aaa" "offer#2") zzz_calling =
       (Normal tt,
        having_published "answer" "answer#6"
          (having_called
             [SetRemoteDescription "offer#2"; CreateAnswer;
              SetLocalDescription "answer#6"] zzz_calling)).
Proof.
  eexists. eexists.
  split; [reflexivity|]. split; [reflexivity|]. split; [reflexivity|].
  split.
  - eapply (proj1 (@offer_handled_in_every_phase accepting zzz_calling
                     (offer_from "aaa" "offer#2") _ _
                     eq_refl eq_refl eq_refl)).
  - eapply (proj2 (proj2 (@offer_handled_in_every_phase accepting zzz_calling
                            (offer_from "aaa" "offer#2") _ _
                            eq_refl eq_refl eq_refl)));
      reflexivity.
Defined.

(** Against C8 as the specification words it: the calling page does not
    discard an OFFER. It applies it to its connection, answers it, and logs
    nothing. *)
Lemma unexpected_offer_is_answered :
  role zzz_calling = INITIATOR
  /\ pc_calls
       (@after accepting (MqttMessage (Json (offer_from "aaa" "offer#2")))
          zzz_calling)
     = (pc_calls zzz_calling
        ++ [SetRemoteDescription "offer#2"; CreateAnswer;
            SetLocalDescription "answer#6"])%list
  /\ outbox
       (@after accepting (MqttMessage (Json (offer_from "aaa" "offer#2")))
          zzz_calling)
     = (outbox zzz_calling ++ [envelope zzz "answer" "answer#6"])%list
  /\ console
       (@after accepting (MqttMessage (Json (offer_from "aaa" "offer#2")))
          zzz_calling)
     = console zzz_calling.
Proof. repeat split. Qed.

(** The calling page is the same under the transport that refuses a remote
    offer after a local one; there the OFFER is still applied to the
    connection, the refusal goes to a promise nobody awaits, and nothing is
    logged. *)
Example unexpected_offer_is_applied_and_refused :
  @run strict [MqttConnect; MqttMessage (Json (presence_from "aaa"))] zzz
  = zzz_calling
  /\ pc_calls
       (@after strict (MqttMessage (Json (offer_from "aaa" "offer#2")))
          zzz_calling)
     = (pc_calls zzz_calling ++ [SetRemoteDescription "offer#2"])%list
  /\ rejections
       (@after strict (MqttMessage (Json (offer_from "aaa" "offer#2")))
          zzz_calling)
     = [RtcRejected]
  /\ console
       (@after strict (MqttMessage (Json (offer_from "aaa" "offer#2")))
          zzz_calling)
     = console zzz_calling.
Proof. repeat split. Qed.

(** ** Joining a room *)

(** [joined] is the page init() leaves behind when the hash names a room and
    the camera is granted. *)
Lemma init_joins (random room : string) (tracks : list MediaStreamTrack) :
  room <> "" ->
  init (Some tracks) (constructor random ("#" ++ room))
  = (Normal tt, joined ("user_" ++ random) room tracks).
Proof.
  intro Hr. apply String.eqb_neq in Hr.
  unfold init, constructor, joined, try_catch, setupMedia, setupMQTT,
    updateStatus, bind, gets, modify. simpl. now rewrite Hr.
Qed.

(** Without a room in the hash init() only shows the landing overlay. *)
Lemma init_lands (random : string) (media : option (list MediaStreamTrack)) :
  init media (constructor random "")
  = (Normal tt, set_landingHidden false (constructor random "")).
Proof. reflexivity. Qed.

(** ** The two-party scenario *)

Section Scenario.

Context {T : MediaTransport} {HT : Cooperative T}.

Lemma receive_subscribed s c topic body :
  mqttClient s = Some c -> In topic (subscriptions c) ->
  receive (topic, body) s = after (MqttMessage body) s.
Proof.
  intros Hm Hin. unfold receive. rewrite Hm. simpl.
  replace (existsb (String.eqb topic) (subscriptions c)) with true; auto.
  symmetry. apply existsb_exists. exists topic. split; auto.
  apply String.eqb_refl.
Qed.

Lemma startCall_cooperative s tracks m :
  localStream s = Some tracks -> mqttClient s = Some m ->
  exists offer,
    startCall s =
    (Normal tt,
     with_status "connecting" "Calling..."
       (having_published "offer" offer
          (having_called [CreateOffer; SetLocalDescription offer]
             (with_connection s)))).
Proof.
  intros Hl Hm. rewrite (startCall_opens s tracks Hl).
  destruct (pc (with_connection s)) as [c|] eqn:Hc;
    [|now elim (with_connection_pc s tracks Hl)].
  destruct (offer_made c) as [offer Ho]. exists offer.
  apply startCall_existing with c m; auto.
  - now rewrite with_connection_mqttClient.
  - apply local_applied.
Qed.

Lemma handleOffer_cooperative s tracks m d :
  localStream s = Some tracks -> mqttClient s = Some m ->
  exists answer,
    handleOffer d s =
    (Normal tt,
     having_published "answer" answer
       (having_called
          [SetRemoteDescription d; CreateAnswer; SetLocalDescription answer]
          (with_connection s))).
Proof.
  intros Hl Hm. rewrite (handleOffer_opens s tracks d Hl).
  destruct (pc (with_connection s)) as [c|] eqn:Hc;
    [|now elim (with_connection_pc s tracks Hl)].
  destruct (answer_made (set_calls (calls c ++ [SetRemoteDescription d]) c))
    as [answer Ha].
  exists answer.
  apply handleOffer_existing with c m; auto.
  - now rewrite with_connection_mqttClient.
  - apply remote_applied.
  - apply local_applied.
Qed.

Lemma room_run_cons step steps r :
  room_run (step :: steps) r = room_run steps (room_step r step).
Proof. reflexivity. Qed.

Lemma room_run_nil r : room_run [] r = r.
Proof. reflexivity. Qed.

Lemma room_step_AtA r e :
  room_step r (AtA e) = {| agentA := after e (agentA r); agentB := agentB r |}.
Proof. reflexivity. Qed.

Lemma room_step_AtB r e :
  room_step r (AtB e) = {| agentA := agentA r; agentB := after e (agentB r) |}.
Proof. reflexivity. Qed.

Lemma agentA_pair a b : agentA {| agentA := a; agentB := b |} = a.
Proof. reflexivity. Qed.

Lemma agentB_pair a b : agentB {| agentA := a; agentB := b |} = b.
Proof. reflexivity. Qed.

Lemma broadcast_subscribed a b ca cb topic body :
  mqttClient a = Some ca -> In topic (subscriptions ca) ->
  mqttClient b = Some cb -> In topic (subscriptions cb) ->
  broadcast (topic, body) {| agentA := a; agentB := b |}
  = {| agentA := after (MqttMessage body) a;
       agentB := after (MqttMessage body) b |}.
Proof.
  intros Ha Hta Hb Htb. unfold broadcast. simpl.
  now rewrite (receive_subscribed a ca topic body Ha Hta),
    (receive_subscribed b cb topic body Hb Htb).
Qed.

Lemma room_step_RelayA a b k ca cb topic body :
  nth_error (outbox a) k = Some (topic, body) ->
  mqttClient a = Some ca -> In topic (subscriptions ca) ->
  mqttClient b = Some cb -> In topic (subscriptions cb) ->
  room_step {| agentA := a; agentB := b |} (RelayA k)
  = {| agentA := after (MqttMessage body) a;
       agentB := after (MqttMessage body) b |}.
Proof.
  intros Hk Ha Hta Hb Htb. unfold room_step. simpl. rewrite Hk.
  now apply broadcast_subscribed with ca cb.
Qed.

Lemma room_step_RelayB a b k ca cb topic body :
  nth_error (outbox b) k = Some (topic, body) ->
  mqttClient a = Some ca -> In topic (subscriptions ca) ->
  mqttClient b = Some cb -> In topic (subscriptions cb) ->
  room_step {| agentA := a; agentB := b |} (RelayB k)
  = {| agentA := after (MqttMessage body) a;
       agentB := after (MqttMessage body) b |}.
Proof.
  intros Hk Ha Hta Hb Htb. unfold room_step. simpl. rewrite Hk.
  now apply broadcast_subscribed with ca cb.
Qed.

Lemma after_connect s m :
  mqttClient s = Some m ->
  after MqttConnect s =
  having_published "presence" "{}"
    (with_status "connecting" "Waiting for peer..."
       (having_subscribed (logged ["Connected to MQTT " ++ clientId s] s))).
Proof.
  intro H. unfold after, dispatch. now rewrite (on_connect_effect s m H).
Qed.

Lemma after_connected s c :
  pc s = Some c -> onconnectionstatechange c = true ->
  after (ConnectionStateChange "connected") s =
  with_status "online" "Connected"
    (logged ["Connection state: connected"] (in_state "connected" s)).
Proof.
  intros Hc Hh. unfold after. now rewrite (connected_effect s c Hc Hh).
Qed.

(** Replace the two pages of the room in [Hr] by their values. *)
Ltac evaluate_pages Hr :=
  match type of Hr with
  | context [Build_Room ?a ?b] =>
      let va := eval vm_compute in a in
      let vb := eval vm_compute in b in
      replace a with va in Hr by (vm_compute; reflexivity);
      replace b with vb in Hr by (vm_compute; reflexivity)
  end.

(** A relay step: both pages are subscribed to the topic of the message. *)
Ltac relay Hr :=
  rewrite room_run_cons in Hr;
  match type of Hr with
  | context [room_step (Build_Room ?a ?b) (RelayA ?k)] =>
      let m := eval vm_compute in (nth_error (outbox a) k) in
      match m with
      | Some (?topic, ?body) =>
          rewrite (room_step_RelayA a b k _ _ topic body
                     eq_refl eq_refl (or_introl eq_refl)
                     eq_refl (or_introl eq_refl)) in Hr
      end
  | context [room_step (Build_Room ?a ?b) (RelayB ?k)] =>
      let m := eval vm_compute in (nth_error (outbox b) k) in
      match m with
      | Some (?topic, ?body) =>
          rewrite (room_step_RelayB a b k _ _ topic body
                     eq_refl eq_refl (or_introl eq_refl)
                     eq_refl (or_introl eq_refl)) in Hr
      end
  end.

(** C5. Page A has the id "zzz" and page B the id "aaa"; both join the same
    room and publish PRESENCE, and the relay hands every published message
    to both. With a transport that accepts the calls, A decides INITIATOR
    and publishes an OFFER; B decides RESPONDER, applies that OFFER and
    publishes an ANSWER; A applies that ANSWER; and when the transports
    report [connected] both pages show the connected status. *)
Theorem two_party_scenario (room : string) (ta tb : list MediaStreamTrack) :
  let a0 := joined "zzz" room ta in
  let b0 := joined "aaa" room tb in
  let r := room_run two_party_schedule {| agentA := a0; agentB := b0 |} in
  exists offer answer,
    role (agentA r) = INITIATOR /\ role (agentB r) = RESPONDER
    /\ outbox (agentA r)
       = [envelope a0 "presence" "{}"; envelope a0 "offer" offer]
    /\ outbox (agentB r)
       = [envelope b0 "presence" "{}"; envelope b0 "answer" answer]
    /\ pc_calls (agentA r)
       = (CreateDataChannel "chat" :: map AddTrack ta
          ++ [CreateOffer; SetLocalDescription offer;
              SetRemoteDescription answer])%list
    /\ pc_calls (agentB r)
       = (map AddTrack tb
          ++ [SetRemoteDescription offer; CreateAnswer;
              SetLocalDescription answer])%list
    /\ (statusIndicator (agentA r), statusText (agentA r))
       = ("online", "Connected")
    /\ (statusIndicator (agentB r), statusText (agentB r))
       = ("online", "Connected")
    /\ rejections (agentA r) = [] /\ rejections (agentB r) = [].
Proof.
  intros a0 b0 r.
  assert (Hr : r = room_run two_party_schedule
                     {| agentA := a0; agentB := b0 |}) by reflexivity.
  clearbody r. unfold two_party_schedule in Hr.
  (* both connect and publish PRESENCE *)
  rewrite room_run_cons, room_step_AtA, agentA_pair, agentB_pair in Hr.
  rewrite room_run_cons, room_step_AtB, agentA_pair, agentB_pair in Hr.
  rewrite (after_connect a0 _ eq_refl), (after_connect b0 _ eq_refl) in Hr.
  evaluate_pages Hr.
  (* the PRESENCE of A: an echo at A, B sides with the receiver *)
  relay Hr.
  match type of Hr with
  | context [Build_Room (after (MqttMessage (Json ?sig)) ?a) (after _ ?b)] =>
      rewrite (after_own a sig eq_refl) in Hr;
      rewrite (after_foreign b sig _ eq_refl
                 (presence_at_responder b sig eq_refl eq_refl)) in Hr
  end.
  evaluate_pages Hr.
  (* the PRESENCE of B: A starts the call, an echo at B *)
  relay Hr.
  match type of Hr with
  | context [Build_Room (after (MqttMessage (Json ?sig)) ?a) (after _ ?b)] =>
      rewrite (after_own b sig eq_refl) in Hr;
      destruct (startCall_cooperative
                  (set_isInitiator true
                     (logged ["Presence from " ++ sender sig ++ ". Ours: "
                                ++ clientId a; "We are the initiator"] a))
                  ta _ eq_refl eq_refl) as [offer Hoffer];
      rewrite (after_foreign a sig _ eq_refl
                 (eq_trans (presence_at_initiator a sig eq_refl eq_refl)
                           (detach_normal _ _ _ Hoffer))) in Hr;
      clear Hoffer
  end.
  evaluate_pages Hr.
  (* the OFFER: an echo at A, B answers *)
  relay Hr.
  match type of Hr with
  | context [Build_Room (after (MqttMessage (Json ?sig)) ?a) (after _ ?b)] =>
      rewrite (after_own a sig eq_refl) in Hr;
      destruct (handleOffer_cooperative b tb _ (data sig) eq_refl eq_refl)
        as [answer Hanswer];
      rewrite (after_foreign b sig _ eq_refl
                 (eq_trans (offer_dispatch b sig eq_refl) Hanswer)) in Hr;
      clear Hanswer
  end.
  evaluate_pages Hr.
  (* the ANSWER: A applies it, an echo at B *)
  relay Hr.
  match type of Hr with
  | context [Build_Room (after (MqttMessage (Json ?sig)) ?a) (after _ ?b)] =>
      rewrite (after_own b sig eq_refl) in Hr;
      rewrite (after_foreign a sig _ eq_refl
                 (eq_trans (answer_dispatch a sig eq_refl)
                    (handleAnswer_existing a _ (data sig) eq_refl
                       (remote_applied _ _)))) in Hr
  end.
  evaluate_pages Hr.
  (* both transports report connected *)
  rewrite room_run_cons, room_step_AtA, agentA_pair, agentB_pair in Hr.
  rewrite room_run_cons, room_step_AtB, agentA_pair, agentB_pair in Hr.
  rewrite room_run_nil in Hr.
  match type of Hr with
  | context [Build_Room (after _ ?a) (after _ ?b)] =>
      rewrite (after_connected a _ eq_refl eq_refl) in Hr;
      rewrite (after_connected b _ eq_refl eq_refl) in Hr
  end.
  evaluate_pages Hr.
  subst r. cbn [agentA agentB]. exists offer, answer.
  repeat split; try (vm_compute; reflexivity).
  unfold pc_calls. cbn [pc calls].
  transitivity
    ((CreateDataChannel "chat" :: map AddTrack ta
      ++ [CreateOffer; SetLocalDescription offer])
     ++ [SetRemoteDescription answer])%list.
  - vm_compute. reflexivity.
  - simpl. now rewrite <- app_assoc.
Qed.

End Scenario.

#[local] Instance accepting_cooperative : Cooperative accepting.
Proof.
  constructor; intros; simpl; eauto.
Defined.

Lemma two_party_scenario_witness :
  Cooperative accepting
  /\ exists offer answer,
      let r := @room_run accepting two_party_schedule
                 {| agentA := zzz; agentB := aaa |} in
      role (agentA r) = INITIATOR /\ role (agentB r) = RESPONDER
      /\ outbox (agentA r)
         = [envelope zzz "presence" "{}"; envelope zzz "offer" offer]
      /\ outbox (agentB r)
         = [envelope aaa "presence" "{}"; envelope aaa "answer" answer]
      /\ pc_calls (agentA r)
         = [CreateDataChannel "chat"; AddTrack "audio"; AddTrack "video";
            CreateOffer; SetLocalDescription offer;
            SetRemoteDescription answer]
      /\ pc_calls (agentB r)
         = [AddTrack "audio"; AddTrack "video"; SetRemoteDescription offer;
            CreateAnswer; SetLocalDescription answer]
      /\ (statusIndicator (agentA r), statusText (agentA r))
         = ("online", "Connected")
      /\ (statusIndicator (agentB r), statusText (agentB r))
         = ("online", "Connected")
      /\ rejections (agentA r) = [] /\ rejections (agentB r) = [].
Proof.
  split.
  - exact accepting_cooperative.
  - exact (@two_party_scenario accepting accepting_cooperative "room"
             ["audio"; "video"] ["audio"; "video"]).
Defined.

(** * More of the page

    Properties of the signalling code beyond the statements above, and of
    the chat panel and the media buttons. *)

Lemma bind_gets {A B} (f : PeerWire -> A) (k : A -> Js B) s :
  bind (gets f) k s = k (f s) s.
Proof. reflexivity. Qed.

Lemma bind_modify {B} (g : PeerWire -> PeerWire) (k : unit -> Js B) s :
  bind (modify g) k s = k tt (g s).
Proof. reflexivity. Qed.

(** ** More steps that keep a property *)

Lemma stable_mqtt_subscribe (P : PeerWire -> Prop) topic :
  (forall s c, P s -> P (set_mqttClient c s)) ->
  stable P (mqtt_subscribe topic).
Proof.
  intros H s Hs. unfold mqtt_subscribe. destruct (mqttClient s); simpl; auto.
Qed.

Lemma stable_remoteStream_addTrack (P : PeerWire -> Prop) track :
  (forall s v, P s -> P (set_remoteStream v s)) ->
  stable P (remoteStream_addTrack track).
Proof.
  intros H s Hs. unfold remoteStream_addTrack, modify. simpl.
  destruct (existsb _ _); auto.
Qed.

Ltac stable_more :=
  first
    [ stable_step
    | apply stable_mqtt_subscribe; intros ? ? H; exact H
    | apply stable_remoteStream_addTrack; intros ? ? H; exact H ].

Ltac js_signalling :=
  unfold handleSignal, handleOffer, handleAnswer, startCall,
    pc_createOffer, pc_createAnswer,
    pc_setLocalDescription, pc_setRemoteDescription, pc_addIceCandidate,
    sendSignal, updateStatus, console_log.

Ltac js_events :=
  unfold dispatch, on_connect, on_message, JSON_parse,
    when_installed, pc_ontrack, pc_onicecandidate,
    pc_onconnectionstatechange, pc_ondatachannel.

(** ** What a page publishes *)

Ltac known :=
  unfold known_type;
  solve [ left; reflexivity | right; left; reflexivity
        | right; right; left; reflexivity | right; right; right; reflexivity ].

Lemma sendSignal_well ty d :
  known_type ty -> stable well_published (sendSignal ty d).
Proof.
  intros Hty s Hs topic body. unfold sendSignal, bind, gets, mqtt_publish.
  unfold well_published, outbox in *.
  destruct (mqttClient s) as [m|] eqn:Hm; simpl; [|now rewrite Hm].
  intro Hin. apply in_app_or in Hin. destruct Hin as [Hin|[Hin|[]]].
  - now apply Hs.
  - inversion Hin; subst. split; [reflexivity|]. now exists ty, d.
Qed.

Lemma subscribe_well topic : stable well_published (mqtt_subscribe topic).
Proof.
  intros s Hs. unfold mqtt_subscribe, well_published, outbox in *.
  destruct (mqttClient s) as [m|] eqn:Hm; simpl; [|now rewrite Hm].
  exact Hs.
Qed.

Ltac well_auto :=
  repeat (intros;
          first [ apply sendSignal_well; known | apply subscribe_well
                | stable_step ]).

Section WellPublished.
Context {T : MediaTransport}.

Lemma handleSignal_well signal : stable well_published (handleSignal signal).
Proof. js_methods. well_auto. Qed.

Lemma dispatch_well e : stable well_published (dispatch e).
Proof.
  destruct e; unfold dispatch, on_connect, on_message, JSON_parse,
    when_installed, pc_ontrack, pc_onicecandidate,
    pc_onconnectionstatechange, pc_ondatachannel, remoteStream_addTrack,
    updateStatus, console_log.
  all: well_auto.
  all: try apply handleSignal_well.
  - intro track. apply stable_modify. intros s0 H. now destruct (existsb _ _).
Qed.

(** X1. Whatever events reach a page, everything it has published stays of
    one shape: sent on the topic of its own room, in its own name, and of
    one of the four kinds presence, offer, answer and candidate. *)
Theorem published_only_own_envelopes (events : list Event) (s : PeerWire) :
  well_published s -> well_published (run events s).
Proof.
  revert s. induction events as [|e events IH]; intros s Hs; simpl.
  - assumption.
  - apply IH. now apply dispatch_well.
Qed.
End WellPublished.

Lemma published_only_own_envelopes_witness :
  well_published zzz_connected
  /\ well_published
       (@run accepting
          [MqttMessage (Json (presence_from "aaa"));
           IceCandidate (Some "candidate:1");
           MqttMessage (Json (offer_from "aaa" "offer#2"))]
          zzz_connected).
Proof.
  assert (H : well_published zzz_connected).
  { intros topic body [E|[]]. injection E as <- <-.
    split; [reflexivity|]. exists "presence", "{}".
    split; [left|]; reflexivity. }
  split; [exact H|].
  apply (@published_only_own_envelopes accepting). exact H.
Defined.


(** ** The connection is kept *)

Lemma connection_kept_refl s c : pc s = Some c -> connection_kept c s.
Proof.
  intro H. exists c. repeat split; auto. exists []. now rewrite app_nil_r.
Qed.

Lemma record_call_kept c call : stable (connection_kept c) (record_call call).
Proof.
  intros s (c' & Hc & Hcfg & [rest Hr] & H1 & H2 & H3 & H4).
  unfold record_call, update_pc, the_pc, bind, modify. rewrite Hc. simpl.
  eexists. split; [reflexivity|]. simpl. repeat split; auto.
  exists (rest ++ [call])%list. now rewrite Hr, app_assoc.
Qed.

Lemma connectionState_kept c state :
  stable (connection_kept c) (update_pc (set_connectionState state)).
Proof.
  intros s (c' & Hc & Hcfg & Hr & H1 & H2 & H3 & H4).
  unfold update_pc, the_pc, bind, modify. rewrite Hc. simpl.
  eexists. split; [reflexivity|]. simpl. repeat split; auto.
Qed.

Lemma createPeerConnection_kept c :
  stable (connection_kept c) createPeerConnection.
Proof.
  intros s H. destruct H as (c' & Hc & H).
  rewrite (createPeerConnection_noop s c' Hc). now exists c'.
Qed.

Ltac kept_auto :=
  repeat (intros;
          first [ apply createPeerConnection_kept | apply record_call_kept
                | apply connectionState_kept | stable_more ]).

Section Kept.
Context {T : MediaTransport}.

Lemma handleSignal_kept c signal :
  stable (connection_kept c) (handleSignal signal).
Proof. js_signalling. kept_auto. Qed.

Lemma dispatch_kept c e : stable (connection_kept c) (dispatch e).
Proof.
  destruct e; js_events; js_signalling.
  all: kept_auto.
  all: try apply handleSignal_kept.
Qed.

(** X2. A page that holds a peer connection never replaces or drops it:
    after any events it holds a connection with the same configuration,
    the calls made so far still in front of its call log, and every handler
    that was installed still installed. *)
Theorem connection_is_never_replaced (events : list Event) (s : PeerWire)
    (c : RTCPeerConnection) :
  pc s = Some c -> connection_kept c (run events s).
Proof.
  intro Hc. apply connection_kept_refl in Hc.
  revert s Hc. induction events as [|e events IH]; intros s Hs; simpl.
  - assumption.
  - apply IH. now apply dispatch_kept.
Qed.
End Kept.

Lemma connection_is_never_replaced_witness :
  exists c,
    pc zzz_calling = Some c
    /\ connection_kept c
         (@run accepting
            [MqttMessage (Json (answer_from "aaa" "answer#3"));
             MqttMessage (Json (presence_from "aaa"));
             ConnectionStateChange "failed"]
            zzz_calling).
Proof.
  eexists. split; [reflexivity|].
  apply (@connection_is_never_replaced accepting). reflexivity.
Defined.


(** ** Handlers *)

Lemma update_pc_wired g :
  (forall c, ontrack (g c) = ontrack c) ->
  (forall c, onicecandidate (g c) = onicecandidate c) ->
  (forall c, onconnectionstatechange (g c) = onconnectionstatechange c) ->
  (forall c, ondatachannel (g c) = ondatachannel c) ->
  stable wired (update_pc g).
Proof.
  intros G1 G2 G3 G4 s (Hl & Hp & Hd).
  unfold update_pc, the_pc, bind, modify.
  destruct (pc s) as [c|] eqn:Hc; simpl.
  - split; [exact Hl|]. split; [|exact Hd].
    intros c' E. injection E as <-. rewrite G1, G2, G3, G4. now apply Hp.
  - split; [exact Hl|]. split; [|exact Hd]. intros c E. congruence.
Qed.

Lemma record_call_wired call : stable wired (record_call call).
Proof. now apply update_pc_wired. Qed.

Lemma connectionState_wired state :
  stable wired (update_pc (set_connectionState state)).
Proof. now apply update_pc_wired. Qed.

Lemma createPeerConnection_wired : stable wired createPeerConnection.
Proof.
  intros s (Hl & Hp & Hd).
  destruct (localStream s) as [tracks|] eqn:El; [|now elim Hl].
  rewrite (createPeerConnection_effect s tracks El). simpl.
  unfold with_connection. rewrite El.
  destruct (pc s) as [c|] eqn:Hc.
  - split; [congruence|]. split; [|exact Hd]. now rewrite Hc.
  - unfold opened. split; [|split].
    + destruct (isInitiator s); simpl; congruence.
    + intros c E. simpl in E. injection E as <-. simpl.
      repeat split. destruct (isInitiator s); simpl; [right|left]; congruence.
    + destruct (isInitiator s); simpl; [|exact Hd].
      intros ch E. injection E as <-. now simpl.
Qed.

Lemma ondatachannel_wired channel : stable wired (pc_ondatachannel channel).
Proof.
  intros s (Hl & Hp & Hd). unfold pc_ondatachannel, modify. simpl.
  split; [exact Hl|]. split.
  - intros c E. destruct (Hp c E) as (H1 & H2 & H3 & _).
    repeat split; auto. right. discriminate.
  - intros ch E. simpl in E. injection E as <-. now simpl.
Qed.

Ltac wired_auto :=
  repeat (intros;
          first [ apply createPeerConnection_wired | apply record_call_wired
                | apply connectionState_wired | apply ondatachannel_wired
                | stable_more ]).

Section Wired.
Context {T : MediaTransport}.

Lemma handleSignal_wired signal : stable wired (handleSignal signal).
Proof. js_signalling. wired_auto. Qed.

Lemma dispatch_wired e : stable wired (dispatch e).
Proof.
  destruct e;
    unfold dispatch, on_connect, on_message, JSON_parse,
      when_installed, pc_ontrack, pc_onicecandidate,
      pc_onconnectionstatechange;
    js_signalling.
  all: wired_auto.
  all: try apply handleSignal_wired.
Qed.

Lemma joined_wired id room tracks : wired (joined id room tracks).
Proof. split; [discriminate|]. split; intros ? E; discriminate E. Qed.

(** X3. Whatever events reach a page that has its local stream, a
    connection it holds has ontrack, onicecandidate and
    onconnectionstatechange installed and either listens for a data channel
    or comes with one, and a data channel it holds has onopen, onmessage
    and onclose installed. *)
Theorem handlers_always_installed (events : list Event) (s : PeerWire) :
  wired s -> wired (run events s).
Proof.
  revert s. induction events as [|e events IH]; intros s Hs; simpl.
  - assumption.
  - apply IH. now apply dispatch_wired.
Qed.
End Wired.

Lemma handlers_always_installed_witness :
  wired zzz_calling
  /\ wired
       (@run accepting
          [MqttMessage (Json (answer_from "aaa" "answer#3"));
           MqttMessage (Json (presence_from "aaa"));
           ConnectionStateChange "connected"]
          zzz_calling).
Proof.
  assert (H : wired zzz_calling).
  { split; [discriminate|]. split.
    - intros c E. injection E as <-. simpl.
      repeat split. right. discriminate.
    - intros ch E. injection E as <-. now simpl. }
  split; [exact H|].
  apply (@handlers_always_installed accepting). exact H.
Defined.


(** ** The remote stream *)


Lemma with_track_members l track x :
  In x (with_track l track) <-> In x l \/ x = track.
Proof.
  unfold with_track.
  destruct (existsb (String.eqb track) l) eqn:E.
  - split; auto. intros [H| ->]; auto.
    apply existsb_exists in E. destruct E as (y & Hy & Ey).
    apply String.eqb_eq in Ey. now subst.
  - rewrite in_app_iff. simpl. intuition.
Qed.

Lemma with_tracks_members tracks : forall l x,
  In x (fold_left with_track tracks l) <-> In x l \/ In x tracks.
Proof.
  induction tracks as [|t tracks IH]; intros l x; simpl.
  - intuition.
  - rewrite IH, with_track_members. intuition.
Qed.

Lemma addTrack_effect track s :
  remoteStream_addTrack track s =
  (Normal tt, set_remoteStream (with_track (remoteStream s) track) s).
Proof.
  unfold remoteStream_addTrack, modify, with_track.
  destruct (existsb (String.eqb track) (remoteStream s)); [|reflexivity].
  now destruct s.
Qed.

Lemma addTracks_effect tracks : forall s,
  forEach tracks remoteStream_addTrack s =
  (Normal tt, set_remoteStream (fold_left with_track tracks (remoteStream s)) s).
Proof.
  induction tracks as [|t tracks IH]; intro s; simpl.
  - unfold ret. now destruct s.
  - rewrite (bind_normal _ _ _ _ _ (addTrack_effect t s)). now rewrite IH.
Qed.

Section RemoteStream.
Context {T : MediaTransport}.




Lemma track_effect (s : PeerWire) (c : RTCPeerConnection)
    (first : list MediaStreamTrack) (others : list (list MediaStreamTrack)) :
  pc s = Some c -> ontrack c = true ->
  dispatch (Track (first :: others)) s =
  (Normal tt,
   with_status "online" "Connected"
     (set_remoteStream (fold_left with_track first (remoteStream s)) s)).
Proof.
  intros Hc Hh. unfold dispatch, when_installed.
  rewrite bind_gets, Hc, Hh.
  unfold pc_ontrack.
  now rewrite (bind_normal _ _ _ _ _ (addTracks_effect first s)).
Qed.

(** X5. A track event on a connection with its handler adds the tracks of
    the first stream of the event, and of no other, to the remote stream,
    keeps the tracks that were there, and shows the status Connected. *)
Theorem track_event_adds_first_stream (s : PeerWire) (c : RTCPeerConnection)
    (first : list MediaStreamTrack) (others : list (list MediaStreamTrack)) :
  pc s = Some c -> ontrack c = true ->
  let s' := after (Track (first :: others)) s in
  (forall x, In x (remoteStream s') <-> In x (remoteStream s) \/ In x first)
  /\ (statusIndicator s', statusText s') = ("online", "Connected").
Proof.
  intros Hc Hh s'. subst s'. unfold after.
  rewrite (track_effect s c first others Hc Hh).
  split; [|reflexivity].
  intro x. simpl. apply with_tracks_members.
Qed.
End RemoteStream.


Lemma track_event_adds_first_stream_witness :
  exists c,
    pc zzz_calling = Some c /\ ontrack c = true
    /\ (forall x,
          In x (remoteStream
                  (@after accepting (Track [["audio"; "video"]; ["screen"]])
                     zzz_calling))
          <-> In x (remoteStream zzz_calling) \/ In x ["audio"; "video"])
    /\ (statusIndicator
          (@after accepting (Track [["audio"; "video"]; ["screen"]])
             zzz_calling),
        statusText
          (@after accepting (Track [["audio"; "video"]; ["screen"]])
             zzz_calling))
       = ("online", "Connected").
Proof.
  eexists. split; [reflexivity|]. split; [reflexivity|].
  eapply (@track_event_adds_first_stream accepting zzz_calling _
            ["audio"; "video"] [["screen"]]); reflexivity.
Defined.


(** ** An ANSWER without a connection, and the Connected status *)
Section Edge.
Context {T : MediaTransport}.

(** X6. An ANSWER of a peer that reaches a page without a peer connection
    reads a member of null: the promise of handleSignal rejects with a
    TypeError that nothing awaits, and the page is otherwise unchanged. *)
Theorem answer_without_connection (s : PeerWire) (from : string) (d : Data) :
  from <> clientId s -> pc s = None ->
  after (MqttMessage (Json (answer_from from d))) s
  = set_rejections (rejections s ++ [TypeError]) s.
Proof.
  intros Hf Hc. apply String.eqb_neq in Hf.
  unfold after, dispatch.
  rewrite (foreign_message s (answer_from from d) Hf).
  erewrite detach_throw; [reflexivity|].
  rewrite answer_dispatch by reflexivity.
  unfold handleAnswer, pc_setRemoteDescription.
  apply bind_throw. unfold the_pc. now rewrite Hc.
Qed.



Lemma updateStatus_not_connected ty text :
  text <> "Connected" -> stable not_connected (updateStatus ty text).
Proof. intros H s _. exact H. Qed.

Lemma handleSignal_not_connected signal :
  stable not_connected (handleSignal signal).
Proof.
  unfold handleSignal, handleOffer, handleAnswer, startCall,
    createPeerConnection, pc_createOffer, pc_createAnswer,
    pc_setLocalDescription, pc_setRemoteDescription, pc_addIceCandidate,
    record_call, console_log, sendSignal.
  repeat (intros;
          first [ apply updateStatus_not_connected; discriminate
                | stable_more ]).
Qed.

(** X7. The status text becomes Connected only through the peer
    connection: by a track event or by the connection state connected.
    No message of the signalling channel sets it. *)
Theorem connected_status_needs_the_transport (e : Event) (s : PeerWire) :
  statusText (after e s) = "Connected" ->
  statusText s = "Connected"
  \/ (exists streams, e = Track streams)
  \/ e = ConnectionStateChange "connected".
Proof.
  intro H.
  destruct (string_dec (statusText s) "Connected") as [|Hs]; [now left|].
  right. destruct e as [|message|streams|candidate|state|channel].
  - exfalso. revert H. change (not_connected (after MqttConnect s)).
    revert s Hs. change (stable not_connected (dispatch MqttConnect)).
    unfold dispatch, on_connect, console_log, sendSignal.
    repeat (intros;
            first [ apply updateStatus_not_connected; discriminate
                  | stable_more ]).
  - exfalso. revert H. change (not_connected (after (MqttMessage message) s)).
    revert s Hs. change (stable not_connected (dispatch (MqttMessage message))).
    unfold dispatch, on_message, JSON_parse.
    repeat (intros; first [ apply handleSignal_not_connected | stable_more ]).
  - left. now exists streams.
  - exfalso. revert H.
    change (not_connected (after (IceCandidate candidate) s)).
    revert s Hs.
    change (stable not_connected (dispatch (IceCandidate candidate))).
    unfold dispatch, when_installed, pc_onicecandidate, sendSignal.
    repeat (intros; stable_more).
  - destruct (string_dec state "connected") as [->|Hn]; [now right|].
    exfalso. revert H.
    apply String.eqb_neq in Hn.
    unfold after, dispatch, when_installed, pc_onconnectionstatechange.
    destruct s as [id room m [c|] ch ls rs ini ps si st rd lh co rj];
      simpl in *; js_run; auto.
    destruct (onconnectionstatechange c); simpl; auto.
    rewrite Hn.
    destruct ((state =? "disconnected") || (state =? "failed")); simpl;
      [discriminate | auto].
  - exfalso. revert H.
    change (not_connected (after (DataChannel channel) s)).
    revert s Hs.
    change (stable not_connected (dispatch (DataChannel channel))).
    unfold dispatch, when_installed, pc_ondatachannel.
    repeat (intros; stable_more).
Qed.
End Edge.

Lemma answer_without_connection_witness :
  "aaa" <> clientId zzz_connected
  /\ pc zzz_connected = None
  /\ @after accepting (MqttMessage (Json (answer_from "aaa" "answer#3")))
       zzz_connected
     = set_rejections (rejections zzz_connected ++ [TypeError]) zzz_connected.
Proof.
  assert (H : "aaa" <> clientId zzz_connected) by discriminate.
  split; [exact H|]. split; [reflexivity|].
  apply (@answer_without_connection accepting); [exact H | reflexivity].
Defined.

Lemma connected_status_needs_the_transport_witness :
  statusText (@after accepting (ConnectionStateChange "connected") zzz_calling)
  = "Connected"
  /\ (statusText zzz_calling = "Connected"
      \/ (exists streams, ConnectionStateChange "connected" = Track streams)
      \/ ConnectionStateChange "connected" = ConnectionStateChange "connected").
Proof.
  assert (H : statusText
                (@after accepting (ConnectionStateChange "connected")
                   zzz_calling) = "Connected") by reflexivity.
  split; [exact H|].
  apply (@connected_status_needs_the_transport accepting). exact H.
Defined.


(** ** The role changes on PRESENCE only *)
Section RoleKept.
Context {T : MediaTransport}.

Lemma handleOffer_keeps_role b d :
  stable (fun s => isInitiator s = b) (handleOffer d).
Proof. js_methods. unfold sendSignal. stable_auto. Qed.

Lemma handleAnswer_keeps_role b d :
  stable (fun s => isInitiator s = b) (handleAnswer d).
Proof. js_methods. stable_auto. Qed.

Lemma addIceCandidate_keeps_role b d :
  stable (fun s => isInitiator s = b) (pc_addIceCandidate d).
Proof. js_methods. stable_auto. Qed.

Lemma other_kinds_keep_role b signal :
  type signal <> "presence" ->
  stable (fun s => isInitiator s = b) (handleSignal signal).
Proof.
  intro Hp. apply String.eqb_neq in Hp. unfold handleSignal. rewrite Hp.
  repeat (intros;
          first [ apply handleOffer_keeps_role | apply handleAnswer_keeps_role
                | apply addIceCandidate_keeps_role | stable_more ]).
Qed.

(** X8. isInitiator is written by the PRESENCE branch of handleSignal only:
    every other event, and every envelope of another type, leaves the role
    as it is. *)
Theorem role_changes_on_presence_only (e : Event) (s : PeerWire) :
  (forall signal, e = MqttMessage (Json signal) -> type signal <> "presence") ->
  isInitiator (after e s) = isInitiator s.
Proof.
  intro Hkind.
  change ((fun s' => isInitiator s' = isInitiator s) (after e s)).
  generalize (eq_refl (isInitiator s)).
  generalize (isInitiator s) at 2 3 as b. intros b. revert s.
  change (stable (fun s => isInitiator s = b) (dispatch e)).
  destruct e as [|[raw|signal]|streams|candidate|state|channel].
  3:{ intros s Hs. unfold dispatch.
      destruct (sender signal =? clientId s) eqn:E.
      - apply String.eqb_eq in E. now rewrite (own_message s signal E).
      - rewrite (foreign_message s signal E).
        apply (stable_detach (fun s => isInitiator s = b)); auto.
        apply other_kinds_keep_role. now apply Hkind. }
  all: js_events; unfold on_connect, sendSignal, updateStatus, console_log.
  all: repeat (intros; stable_more).
Qed.
End RoleKept.

Lemma role_changes_on_presence_only_witness :
  (forall signal,
     MqttMessage (Json (offer_from "aaa" "offer#2"))
     = MqttMessage (Json signal) ->
     type signal <> "presence")
  /\ isInitiator
       (@after accepting (MqttMessage (Json (offer_from "aaa" "offer#2")))
          zzz_calling)
     = isInitiator zzz_calling.
Proof.
  assert (H : forall signal,
             MqttMessage (Json (offer_from "aaa" "offer#2"))
             = MqttMessage (Json signal) ->
             type signal <> "presence").
  { intros signal E. injection E as <-. discriminate. }
  split; [exact H|].
  apply (@role_changes_on_presence_only accepting). exact H.
Defined.


(** ** Topics and rooms *)

Lemma append_inj_l (p a b : string) : p ++ a = p ++ b -> a = b.
Proof.
  induction p as [|c p IH]; simpl; intro H; [assumption|].
  injection H as H. now apply IH.
Qed.

Lemma length_append (a b : string) :
  String.length (a ++ b) = String.length a + String.length b.
Proof. induction a as [|c a IH]; simpl; [reflexivity|now rewrite IH]. Qed.

Lemma append_inj_r (s : string) : forall a b, a ++ s = b ++ s -> a = b.
Proof.
  induction a as [|c a IH]; intros [|d b] H; simpl in *.
  - reflexivity.
  - apply (f_equal String.length) in H. simpl in H.
    rewrite length_append in H. lia.
  - apply (f_equal String.length) in H. simpl in H.
    rewrite length_append in H. lia.
  - injection H as -> H. f_equal. now apply IH.
Qed.

(** X9. Two pages publish and subscribe on the same topic exactly when
    their room ids are the same. *)
Theorem topic_names_the_room (a b : PeerWire) :
  signalTopic a = signalTopic b <-> roomId a = roomId b.
Proof.
  unfold signalTopic. split; intro H; [|now rewrite H].
  apply append_inj_l in H. apply append_inj_l in H.
  now apply append_inj_r in H.
Qed.

(** ** The outcomes of init() *)


(** ** A local candidate reaches the peer *)
Section CandidateRelay.
Context {T : MediaTransport}.

Lemma candidate_published s c m d :
  pc s = Some c -> onicecandidate c = true -> mqttClient s = Some m ->
  dispatch (IceCandidate (Some d)) s
  = (Normal tt, having_published "candidate" d s).
Proof.
  intros Hc Hh Hm. unfold dispatch, when_installed.
  rewrite bind_gets, Hc, Hh. unfold pc_onicecandidate.
  now apply sendSignal_effect with m.
Qed.

Lemma having_published_outbox ty d s m :
  mqttClient s = Some m ->
  outbox (having_published ty d s) = (outbox s ++ [envelope s ty d])%list.
Proof.
  intro Hm. unfold having_published, outbox. rewrite Hm. now destruct s.
Qed.

Lemma end_of_candidates s : after (IceCandidate None) s = s.
Proof.
  unfold after, dispatch, when_installed, pc_onicecandidate.
  rewrite bind_gets. destruct (pc s) as [c|]; [|reflexivity].
  now destruct (onicecandidate c).
Qed.

(** X11. A candidate the connection of one page finds is published as one
    candidate envelope, and that envelope, delivered to a subscribed peer
    with a connection, is handed to the peer's addIceCandidate with the same
    data; the end of gathering (a null candidate) publishes nothing. *)
Theorem candidate_reaches_the_peer (a b : PeerWire)
    (ca cb : RTCPeerConnection) (ma mb : MqttClient) (d : Data) :
  pc a = Some ca -> onicecandidate ca = true -> mqttClient a = Some ma ->
  pc b = Some cb -> mqttClient b = Some mb ->
  In (signalTopic a) (subscriptions mb) ->
  clientId a <> clientId b ->
  let a' := after (IceCandidate (Some d)) a in
  outbox a' = (outbox a ++ [envelope a "candidate" d])%list
  /\ pc_calls (receive (envelope a "candidate" d) b)
     = (calls cb ++ [AddIceCandidate d])%list
  /\ after (IceCandidate None) a' = a'.
Proof.
  intros Hca Hh Hma Hcb Hmb Hsub Hid a'.
  assert (E : a' = having_published "candidate" d a).
  { subst a'. unfold after.
    now rewrite (candidate_published a ca ma d Hca Hh Hma). }
  rewrite E. clear E a'.
  split; [|split].
  - now apply having_published_outbox with ma.
  - unfold envelope. rewrite (receive_subscribed b mb _ _ Hmb Hsub).
    change (Json _) with (Json (candidate_from (clientId a) d)).
    destruct (candidate_with_connection b cb (clientId a) d Hid Hcb) as [H _].
    unfold pc_calls. now rewrite H.
  - apply end_of_candidates.
Qed.
End CandidateRelay.

Lemma candidate_reaches_the_peer_witness :
  exists ca cb ma mb,
    pc zzz_calling = Some ca /\ onicecandidate ca = true
    /\ mqttClient zzz_calling = Some ma
    /\ pc aaa_answering = Some cb /\ mqttClient aaa_answering = Some mb
    /\ In (signalTopic zzz_calling) (subscriptions mb)
    /\ clientId zzz_calling <> clientId aaa_answering
    /\ outbox (@after accepting (IceCandidate (Some "candidate:1")) zzz_calling)
       = (outbox zzz_calling
          ++ [envelope zzz_calling "candidate" "candidate:1"])%list
    /\ pc_calls
         (@receive accepting (envelope zzz_calling "candidate" "candidate:1")
            aaa_answering)
       = (calls cb ++ [AddIceCandidate "candidate:1"])%list
    /\ @after accepting (IceCandidate None)
         (@after accepting (IceCandidate (Some "candidate:1")) zzz_calling)
       = @after accepting (IceCandidate (Some "candidate:1")) zzz_calling.
Proof.
  do 4 eexists.
  split; [reflexivity|]. split; [reflexivity|]. split; [reflexivity|].
  split; [reflexivity|]. split; [reflexivity|].
  split; [left; reflexivity|]. split; [discriminate|].
  eapply (@candidate_reaches_the_peer accepting zzz_calling aaa_answering
            _ _ _ _ "candidate:1");
    first [reflexivity | discriminate | left; reflexivity].
Defined.


(** ** Every connect announces the page again *)
Section Reconnect.
Context {T : MediaTransport}.

Lemma connect_effect s m :
  mqttClient s = Some m ->
  let s' := after MqttConnect s in
  clientId s' = clientId s /\ roomId s' = roomId s
  /\ mqttClient s'
     = Some {| brokerUrl := brokerUrl m; mqttClientId := mqttClientId m;
               clean := clean m;
               subscriptions := (subscriptions m ++ [signalTopic s])%list;
               published := (published m ++ [envelope s "presence" "{}"])%list |}.
Proof.
  intros Hm s'. subst s'. unfold after, dispatch.
  rewrite (on_connect_effect s m Hm).
  destruct s; simpl in *; subst. repeat split.
Qed.

(** X12. Every connect event of the MQTT client subscribes to the topic
    and publishes a PRESENCE again: after n of them the client holds n more
    subscriptions and n more PRESENCE envelopes. *)
Theorem every_connect_announces_presence (n : nat) (s : PeerWire)
    (m : MqttClient) :
  mqttClient s = Some m ->
  exists m',
    mqttClient (run (repeat MqttConnect n) s) = Some m'
    /\ subscriptions m' = (subscriptions m ++ repeat (signalTopic s) n)%list
    /\ published m'
       = (published m ++ repeat (envelope s "presence" "{}") n)%list.
Proof.
  revert s m. induction n as [|n IH]; intros s m Hm; simpl.
  - exists m. now rewrite !app_nil_r.
  - destruct (connect_effect s m Hm) as (Hid & Hroom & Hm').
    destruct (IH _ _ Hm') as (m' & H1 & H2 & H3).
    exists m'. split; [exact H1|].
    assert (Et : signalTopic (after MqttConnect s) = signalTopic s)
      by (unfold signalTopic; now rewrite Hroom).
    assert (Ee : envelope (after MqttConnect s) "presence" "{}"
                 = envelope s "presence" "{}")
      by (unfold envelope; now rewrite Et, Hid).
    rewrite H2, H3, Et, Ee. simpl. now rewrite <- !app_assoc.
Qed.
End Reconnect.

Lemma every_connect_announces_presence_witness :
  exists m,
    mqttClient zzz = Some m
    /\ exists m',
         mqttClient (@run accepting (repeat MqttConnect 2) zzz) = Some m'
         /\ subscriptions m'
            = (subscriptions m ++ repeat (signalTopic zzz) 2)%list
         /\ published m'
            = (published m ++ repeat (envelope zzz "presence" "{}") 2)%list.
Proof.
  eexists. split; [reflexivity|].
  apply (@every_connect_announces_presence accepting 2 zzz). reflexivity.
Defined.

(** ** The chat panel: trim *)

Lemma trimEnd_cons c rest :
  trimEnd (String c rest)
  = match trimEnd rest with
    | EmptyString =>
        if is_white_space c then EmptyString else String c EmptyString
    | kept => String c kept
    end.
Proof. reflexivity. Qed.

Lemma trimEnd_idempotent s : trimEnd (trimEnd s) = trimEnd s.
Proof.
  induction s as [|c rest IH]; [reflexivity|].
  rewrite trimEnd_cons.
  destruct (trimEnd rest) as [|d kept] eqn:E.
  - destruct (is_white_space c) eqn:W; [reflexivity|].
    rewrite trimEnd_cons. simpl. now rewrite W.
  - rewrite trimEnd_cons, IH. reflexivity.
Qed.

Lemma trimStart_black s : starts_black (trimStart s).
Proof.
  induction s as [|c rest IH]; simpl; [exact I|].
  destruct (is_white_space c) eqn:W; [exact IH | exact W].
Qed.

Lemma trimStart_of_black s : starts_black s -> trimStart s = s.
Proof. destruct s as [|c rest]; simpl; [reflexivity|]. now intros ->. Qed.

Lemma trimEnd_black s : starts_black s -> starts_black (trimEnd s).
Proof.
  destruct s as [|c rest]; [exact id|]. simpl. intro W.
  destruct (trimEnd rest); [rewrite W|]; exact W.
Qed.

Lemma trim_idempotent s : trim (trim s) = trim s.
Proof.
  unfold trim.
  rewrite (trimStart_of_black (trimEnd (trimStart s))).
  - apply trimEnd_idempotent.
  - apply trimEnd_black, trimStart_black.
Qed.

Lemma trim_empty : trim "" = "".
Proof. reflexivity. Qed.

(** ** The chat panel: sendMessage *)

Lemma sendMessage_sends t p channel :
  dataChannel (this p) = Some channel ->
  trim (chatInput p) <> "" -> readyState p = "open" ->
  sendMessage t p =
  {| this := this p;
     chatInput := "";
     chatMessages :=
       chatMessages p
       ++ [{| className := "message local ";
              html_text := trim (chatInput p);
              html_sender := "Me";
              html_timestamp := toLocaleTimeString t |}];
     readyState := readyState p;
     sent := sent p ++ [Stringified {| text := trim (chatInput p);
                                       timestamp := Date_now t |}] |}.
Proof.
  intros Hc Ht Hr. unfold sendMessage. rewrite Hc.
  apply String.eqb_neq in Ht. apply String.eqb_eq in Hr.
  rewrite Ht, Hr. reflexivity.
Qed.

Lemma sendMessage_skips t p :
  trim (chatInput p) = "" \/ dataChannel (this p) = None
  \/ readyState p <> "open" ->
  sendMessage t p = p.
Proof.
  unfold sendMessage. intros [H|[H|H]].
  - rewrite H. now destruct (dataChannel (this p)).
  - now rewrite H.
  - apply String.eqb_neq in H. rewrite H, andb_false_r.
    now destruct (dataChannel (this p)).
Qed.

Lemma sendMessage_cases (p : ChatPage) :
  (trim (chatInput p) = "" \/ dataChannel (this p) = None
   \/ readyState p <> "open")
  \/ (exists channel, dataChannel (this p) = Some channel)
     /\ trim (chatInput p) <> "" /\ readyState p = "open".
Proof.
  destruct (string_dec (trim (chatInput p)) "") as [|Ht]; [now left; left|].
  destruct (dataChannel (this p)) as [channel|]; [|now left; right; left].
  destruct (string_dec (readyState p) "open") as [Hr|Hr].
  - right. split; [now exists channel | now split].
  - left. right. now right.
Qed.

(** X13. Something is handed to dataChannel.send only by a click on the
    send button or the Enter key, and only when the trimmed input is not
    empty, the page holds a data channel and the channel is open: no other
    key, no typing and no event of the channel sends anything. *)
Theorem only_send_attempts_send (e : ChatEvent) (p : ChatPage) :
  sent (chat_after e p) <> sent p ->
  ((exists t, e = SendClick t) \/ (exists t, e = KeyDown "Enter" t))
  /\ trim (chatInput p) <> ""
  /\ dataChannel (this p) <> None
  /\ readyState p = "open".
Proof.
  intro H.
  assert (Hsend : forall t, sent (sendMessage t p) <> sent p ->
            trim (chatInput p) <> "" /\ dataChannel (this p) <> None
            /\ readyState p = "open").
  { intros t Ht. destruct (sendMessage_cases p) as [Hs|(Hc & Hx & Hr)].
    - now rewrite (sendMessage_skips t p Hs) in Ht.
    - destruct Hc as [ch Hc]. repeat split; auto. congruence. }
  destruct e as [value|t|key t|t|data t|t]; unfold chat_after in H; simpl in H.
  - now elim H.
  - split; [left; now exists t | now apply (Hsend t)].
  - destruct (key =? "Enter") eqn:E; simpl in H; [|now elim H].
    apply String.eqb_eq in E. subst key.
    split; [right; now exists t | now apply (Hsend t)].
  - destruct (dataChannel (this p)) as [ch|]; [|now elim H].
    destruct (onopen ch); now elim H.
  - destruct (dataChannel (this p)) as [ch|]; [|now elim H].
    destruct (onmessage ch); [|now elim H].
    destruct data; now elim H.
  - destruct (dataChannel (this p)) as [ch|]; [|now elim H].
    destruct (onclose ch); now elim H.
Qed.

Lemma only_send_attempts_send_witness :
  sent (chat_after (SendClick noon) (set_chatInput " hello " zzz_chat))
  <> sent (set_chatInput " hello " zzz_chat)
  /\ ((exists t, SendClick noon = SendClick t)
      \/ (exists t, SendClick noon = KeyDown "Enter" t))
  /\ trim (chatInput (set_chatInput " hello " zzz_chat)) <> ""
  /\ dataChannel (this (set_chatInput " hello " zzz_chat)) <> None
  /\ readyState (set_chatInput " hello " zzz_chat) = "open".
Proof.
  assert (H : sent (chat_after (SendClick noon)
                      (set_chatInput " hello " zzz_chat))
              <> sent (set_chatInput " hello " zzz_chat))
    by (vm_compute; discriminate).
  split; [exact H|].
  apply (only_send_attempts_send (SendClick noon)). exact H.
Defined.


(** X14. A second send attempt without typing in between does nothing:
    whether or not the first one sent, the input is then empty or the guard
    fails as before, so a double click never sends a text twice. *)
Theorem second_send_does_nothing (t1 t2 : Instant) (p : ChatPage) :
  sendMessage t2 (sendMessage t1 p) = sendMessage t1 p.
Proof.
  destruct (sendMessage_cases p) as [Hs|([ch Hc] & Hx & Hr)].
  - rewrite (sendMessage_skips t1 p Hs). now apply sendMessage_skips.
  - rewrite (sendMessage_sends t1 p ch Hc Hx Hr).
    apply sendMessage_skips. now left.
Qed.

(** ** The chat panel: what the events keep *)

Lemma sendMessage_well_sent t p :
  Forall well_sent (sent p) -> Forall well_sent (sent (sendMessage t p)).
Proof.
  intro H. destruct (sendMessage_cases p) as [Hs|([ch Hc] & Hx & Hr)].
  - now rewrite (sendMessage_skips t p Hs).
  - rewrite (sendMessage_sends t p ch Hc Hx Hr). simpl.
    apply Forall_app. split; [exact H|]. constructor; [|constructor].
    eexists. split; [reflexivity|]. simpl. split; [exact Hx|].
    apply trim_idempotent.
Qed.

Lemma chat_after_sent e p :
  sent (chat_after e p) = sent p
  \/ exists t, chat_after e p = sendMessage t p.
Proof.
  destruct e as [value|t|key t|t|data t|t]; unfold chat_after; simpl.
  - now left.
  - right. now exists t.
  - destruct (key =? "Enter"); [right; now exists t | now left].
  - left. destruct (dataChannel (this p)) as [ch|]; [|reflexivity].
    now destruct (onopen ch).
  - left. destruct (dataChannel (this p)) as [ch|]; [|reflexivity].
    destruct (onmessage ch); [|reflexivity]. now destruct data.
  - left. destruct (dataChannel (this p)) as [ch|]; [|reflexivity].
    now destruct (onclose ch).
Qed.

(** X15. Every message the page sends carries a text that is not empty and
    has no white space at either end, whatever the user types and whatever
    arrives on the channel. *)
Theorem sent_texts_are_trimmed (events : list ChatEvent) (p : ChatPage) :
  Forall well_sent (sent p) -> Forall well_sent (sent (chat_run events p)).
Proof.
  revert p. induction events as [|e events IH]; intros p Hp; simpl.
  - exact Hp.
  - apply IH. destruct (chat_after_sent e p) as [E|[t E]]; rewrite E.
    + exact Hp.
    + now apply sendMessage_well_sent.
Qed.

Lemma sent_texts_are_trimmed_witness :
  Forall well_sent (sent (chat_of zzz_calling))
  /\ Forall well_sent
       (sent
          (chat_run
             [ChannelOpen noon; Typed " hello "; SendClick noon;
              ChannelMessage (Garbled "{") noon; Typed "  ";
              KeyDown "Enter" noon]
             (chat_of zzz_calling))).
Proof.
  assert (H : Forall well_sent (sent (chat_of zzz_calling))) by constructor.
  split; [exact H|].
  apply sent_texts_are_trimmed. exact H.
Defined.


Lemma local_texts_app p l :
  local_texts (set_chatMessages (chatMessages p ++ l) p)
  = (local_texts p ++ map html_text (filter is_local_line l))%list.
Proof. unfold local_texts. simpl. now rewrite filter_app, map_app. Qed.






Lemma chat_after_no_channel e p :
  dataChannel (this p) = None ->
  exists value, chat_after e p = set_chatInput value p.
Proof.
  intro H.
  destruct e as [value|t|key t|t|data t|t]; unfold chat_after; simpl;
    try rewrite H; simpl.
  - now exists value.
  - exists (chatInput p). rewrite sendMessage_skips by auto. now destruct p.
  - exists (chatInput p). destruct (key =? "Enter"); simpl;
      [rewrite sendMessage_skips by auto|]; now destruct p.
  - exists (chatInput p). now destruct p.
  - exists (chatInput p). now destruct p.
  - exists (chatInput p). now destruct p.
Qed.

(** X17. As long as the page holds no data channel the chat is inert:
    whatever the user types or clicks nothing is sent and nothing is shown;
    only the text in the input changes. *)
Theorem no_channel_no_chat (events : list ChatEvent) (p : ChatPage) :
  dataChannel (this p) = None ->
  let p' := chat_run events p in
  sent p' = sent p /\ chatMessages p' = chatMessages p
  /\ readyState p' = readyState p /\ this p' = this p.
Proof.
  revert p. induction events as [|e events IH]; intros p Hp; simpl.
  - repeat split.
  - destruct (chat_after_no_channel e p Hp) as [value E]. rewrite E.
    apply (IH (set_chatInput value p)). exact Hp.
Qed.

Lemma no_channel_no_chat_witness :
  dataChannel (this (chat_of aaa_answering)) = None
  /\ sent (chat_run [Typed "hello"; SendClick noon; ChannelOpen noon]
             (chat_of aaa_answering))
     = sent (chat_of aaa_answering)
  /\ chatMessages (chat_run [Typed "hello"; SendClick noon; ChannelOpen noon]
                     (chat_of aaa_answering))
     = chatMessages (chat_of aaa_answering)
  /\ readyState (chat_run [Typed "hello"; SendClick noon; ChannelOpen noon]
                   (chat_of aaa_answering))
     = readyState (chat_of aaa_answering)
  /\ this (chat_run [Typed "hello"; SendClick noon; ChannelOpen noon]
             (chat_of aaa_answering))
     = this (chat_of aaa_answering).
Proof.
  split; [reflexivity|].
  apply (no_channel_no_chat
           [Typed "hello"; SendClick noon; ChannelOpen noon]
           (chat_of aaa_answering)).
  reflexivity.
Defined.


Lemma chat_after_closed e p :
  readyState p <> "open" -> not_opening e ->
  sent (chat_after e p) = sent p
  /\ local_texts (chat_after e p) = local_texts p
  /\ readyState (chat_after e p) <> "open".
Proof.
  intros Hr He.
  destruct e as [value|t|key t|t|data t|t]; unfold chat_after; simpl.
  - now repeat split.
  - rewrite sendMessage_skips by auto. now repeat split.
  - destruct (key =? "Enter"); simpl;
      [rewrite sendMessage_skips by auto|]; now repeat split.
  - elim He.
  - destruct (dataChannel (this p)) as [ch|]; [|now repeat split].
    destruct (onmessage ch); [|now repeat split].
    destruct data; simpl; [now repeat split|].
    repeat split; auto.
    unfold local_texts. simpl. rewrite filter_app, map_app. simpl.
    now rewrite app_nil_r.
  - destruct (dataChannel (this p)) as [ch|]; [|now repeat split].
    destruct (onclose ch); simpl.
    + repeat split; try discriminate.
      unfold local_texts. simpl. rewrite filter_app, map_app. simpl.
      now rewrite app_nil_r.
    + repeat split; discriminate.
Qed.

(** X18. While the channel is not open, and until an open event, nothing
    is sent and no line is shown as the user's own. *)
Theorem nothing_sent_while_closed (events : list ChatEvent) (p : ChatPage) :
  readyState p <> "open" -> Forall not_opening events ->
  sent (chat_run events p) = sent p
  /\ local_texts (chat_run events p) = local_texts p.
Proof.
  revert p. induction events as [|e events IH]; intros p Hr He; simpl.
  - now split.
  - inversion He as [|? ? He1 He2]; subst.
    destruct (chat_after_closed e p Hr He1) as (E1 & E2 & E3).
    destruct (IH (chat_after e p) E3 He2) as [F1 F2].
    split; congruence.
Qed.

Lemma nothing_sent_while_closed_witness :
  readyState (chat_of zzz_calling) <> "open"
  /\ Forall not_opening [Typed "hello"; SendClick noon; KeyDown "Enter" noon]
  /\ sent (chat_run [Typed "hello"; SendClick noon; KeyDown "Enter" noon]
             (chat_of zzz_calling))
     = sent (chat_of zzz_calling)
  /\ local_texts
       (chat_run [Typed "hello"; SendClick noon; KeyDown "Enter" noon]
          (chat_of zzz_calling))
     = local_texts (chat_of zzz_calling).
Proof.
  assert (H : readyState (chat_of zzz_calling) <> "open") by discriminate.
  assert (F : Forall not_opening
                [Typed "hello"; SendClick noon; KeyDown "Enter" noon])
    by (repeat constructor).
  split; [exact H|]. split; [exact F|].
  apply nothing_sent_while_closed; [exact H | exact F].
Defined.





(** ** The media buttons *)

Lemma toggle_token token force l :
  In token (classList_toggle token force l) <-> force = true.
Proof.
  unfold classList_toggle. destruct force.
  - split; [reflexivity|]. intros _.
    destruct (existsb (String.eqb token) l) eqn:E.
    + apply existsb_exists in E. destruct E as (x & Hx & Ex).
      apply String.eqb_eq in Ex. now subst.
    + apply in_or_app. right. now left.
  - split; [|discriminate]. intro H. apply filter_In in H.
    destruct H as [_ H]. now rewrite String.eqb_refl in H.
Qed.

Lemma toggle_other token force l x :
  x <> token -> In x (classList_toggle token force l) <-> In x l.
Proof.
  intro Hx. unfold classList_toggle. destruct force.
  - destruct (existsb (String.eqb token) l); [reflexivity|].
    rewrite in_app_iff. simpl. intuition congruence.
  - rewrite filter_In. apply String.eqb_neq in Hx. rewrite Hx. intuition.
Qed.

Lemma set_first_kind k v tracks t rest :
  filter (fun t => kind t =? k) tracks = t :: rest ->
  filter (fun t => kind t =? k) (set_first_enabled k v tracks)
  = {| track := track t; kind := kind t; enabled := v |} :: rest.
Proof.
  induction tracks as [|x tracks IH]; simpl; [discriminate|].
  destruct (kind x =? k) eqn:E; simpl.
  - intro H. injection H as -> ->. now rewrite E.
  - intro H. rewrite E. now apply IH.
Qed.

Lemma set_first_other k k' v tracks :
  k' <> k ->
  filter (fun t => kind t =? k') (set_first_enabled k v tracks)
  = filter (fun t => kind t =? k') tracks.
Proof.
  intro Hk. induction tracks as [|x tracks IH]; simpl; [reflexivity|].
  destruct (kind x =? k) eqn:E; simpl.
  - apply String.eqb_eq in E.
    assert (F : (kind x =? k') = false) by (apply String.eqb_neq; congruence).
    now rewrite F.
  - now rewrite IH.
Qed.

Lemma set_first_same k tracks t rest :
  filter (fun t => kind t =? k) tracks = t :: rest ->
  set_first_enabled k (enabled t) tracks = tracks.
Proof.
  induction tracks as [|x tracks IH]; simpl; [reflexivity|].
  destruct (kind x =? k) eqn:E.
  - intro H. injection H as -> _. now destruct t.
  - intro H. now rewrite IH.
Qed.

Lemma set_first_twice k v w tracks :
  set_first_enabled k v (set_first_enabled k w tracks)
  = set_first_enabled k v tracks.
Proof.
  induction tracks as [|x tracks IH]; simpl; [reflexivity|].
  destruct (kind x =? k) eqn:E; simpl; rewrite E; [reflexivity|].
  now rewrite IH.
Qed.

Lemma set_first_swap k k' v w tracks :
  k <> k' ->
  set_first_enabled k v (set_first_enabled k' w tracks)
  = set_first_enabled k' w (set_first_enabled k v tracks).
Proof.
  intro Hk. induction tracks as [|x tracks IH]; simpl; [reflexivity|].
  destruct (kind x =? k') eqn:E'; destruct (kind x =? k) eqn:E; simpl;
    rewrite ?E, ?E'; try reflexivity.
  - apply String.eqb_eq in E, E'. congruence.
  - now rewrite IH.
Qed.

Lemma set_first_members k v tracks :
  map track (set_first_enabled k v tracks) = map track tracks
  /\ map kind (set_first_enabled k v tracks) = map kind tracks.
Proof.
  induction tracks as [|x tracks [IH1 IH2]]; simpl; [now split|].
  destruct (kind x =? k); simpl; [now split|]. now rewrite IH1, IH2.
Qed.

(** What a click does, by the first track of the button's kind. *)
Lemma click_effect b c tracks t rest :
  stream c = Some tracks ->
  filter (fun t => kind t =? kind_of b) tracks = t :: rest ->
  stream (click b c)
  = Some (set_first_enabled (kind_of b) (negb (enabled t)) tracks)
  /\ button b (click b c)
     = classList_toggle "inactive" (negb (negb (enabled t)))
         (classList_toggle "active" (negb (enabled t)) (button b c)).
Proof.
  intros Hs Hf.
  destruct b; simpl in *;
    unfold toggle_mic_onclick, toggle_cam_onclick,
      getAudioTracks, getVideoTracks;
    rewrite Hs, Hf; simpl; now split.
Qed.

Lemma click_throws b c :
  first_of_kind (kind_of b) c = None -> click b c = c.
Proof.
  unfold first_of_kind, tracks_of_kind. intro H.
  destruct b; simpl in *;
    unfold toggle_mic_onclick, toggle_cam_onclick,
      getAudioTracks, getVideoTracks;
    destruct (stream c) as [tracks|]; try reflexivity;
    destruct (filter _ tracks); try reflexivity; discriminate.
Qed.

Lemma first_of_kind_cases k c :
  first_of_kind k c = None
  \/ exists tracks t rest,
       stream c = Some tracks
       /\ filter (fun t => kind t =? k) tracks = t :: rest.
Proof.
  unfold first_of_kind, tracks_of_kind.
  destruct (stream c) as [tracks|]; [|now left].
  destruct (filter _ tracks) as [|t rest] eqn:E; [now left|].
  right. now exists tracks, t, rest.
Qed.

(** X20. After a click on the microphone or the camera button the first
    track of its kind has its enabled member flipped, and the button has
    the class active exactly when the track is now enabled and the class
    inactive exactly when it is not, whatever classes it had before. *)
Theorem button_shows_track_state (b : Click) (c : Controls) (t : LocalTrack) :
  first_of_kind (kind_of b) c = Some t ->
  let c' := click b c in
  first_of_kind (kind_of b) c'
  = Some {| track := track t; kind := kind t; enabled := negb (enabled t) |}
  /\ (In "active" (button b c') <-> enabled t = false)
  /\ (In "inactive" (button b c') <-> enabled t = true).
Proof.
  intros Hf c'. subst c'.
  destruct (first_of_kind_cases (kind_of b) c)
    as [E|(tracks & t' & rest & Hs & Hk)]; [congruence|].
  assert (t' = t).
  { unfold first_of_kind, tracks_of_kind in Hf. rewrite Hs, Hk in Hf.
    now injection Hf. }
  subst t'.
  destruct (click_effect b c tracks t rest Hs Hk) as [E1 E2].
  split; [|split].
  - unfold first_of_kind, tracks_of_kind. rewrite E1.
    now rewrite (set_first_kind _ _ _ _ _ Hk).
  - rewrite E2, toggle_other by discriminate. rewrite toggle_token.
    now destruct (enabled t).
  - rewrite E2, toggle_token. now destruct (enabled t).
Qed.

Lemma button_shows_track_state_witness :
  first_of_kind (kind_of ToggleCam) studio
  = Some {| track := "video"; kind := "video"; enabled := true |}
  /\ first_of_kind (kind_of ToggleCam) (click ToggleCam studio)
     = Some {| track := "video"; kind := "video"; enabled := false |}
  /\ (In "active" (button ToggleCam (click ToggleCam studio))
      <-> true = false)
  /\ (In "inactive" (button ToggleCam (click ToggleCam studio))
      <-> true = true).
Proof.
  split; [reflexivity|].
  apply (button_shows_track_state ToggleCam studio
           {| track := "video"; kind := "video"; enabled := true |}).
  reflexivity.
Defined.


(** X21. A click on the microphone or the camera button throws a TypeError
    exactly when there is no local stream or no track of the kind in it,
    and then nothing on the page is changed. *)
Theorem click_without_track_throws (c : Controls) :
  (fst (toggle_mic_onclick c) = Throw TypeError
   <-> first_of_kind "audio" c = None)
  /\ (fst (toggle_cam_onclick c) = Throw TypeError
      <-> first_of_kind "video" c = None)
  /\ (first_of_kind "audio" c = None -> snd (toggle_mic_onclick c) = c)
  /\ (first_of_kind "video" c = None -> snd (toggle_cam_onclick c) = c).
Proof.
  unfold first_of_kind, tracks_of_kind, toggle_mic_onclick,
    toggle_cam_onclick, getAudioTracks, getVideoTracks.
  destruct (stream c) as [tracks|]; [|now repeat split].
  repeat split;
    destruct (filter _ tracks); simpl; try discriminate; reflexivity.
Qed.

(** X22. Two clicks on the same button leave every track of the local
    stream as it was. *)
Theorem two_clicks_restore_the_tracks (b : Click) (c : Controls) :
  stream (click b (click b c)) = stream c.
Proof.
  destruct (first_of_kind_cases (kind_of b) c)
    as [E|(tracks & t & rest & Hs & Hk)].
  - now rewrite !(click_throws b c E).
  - destruct (click_effect b c tracks t rest Hs Hk) as [E1 _].
    pose proof (set_first_kind _ (negb (enabled t)) _ _ _ Hk) as Hk'.
    destruct (click_effect b (click b c) _ _ rest E1 Hk') as [E2 _].
    rewrite E2, Hs. simpl. rewrite negb_involutive, set_first_twice.
    f_equal. now apply set_first_same with rest.
Qed.

(** X23. A click changes the enabled member of at most one track: the
    stream keeps its tracks and their kinds in order, the tracks of the
    other kind are untouched, and so are the tracks of the button's kind
    after the first. *)
Theorem click_touches_one_track (b : Click) (c : Controls) :
  let c' := click b c in
  option_map (map track) (stream c') = option_map (map track) (stream c)
  /\ option_map (map kind) (stream c') = option_map (map kind) (stream c)
  /\ (forall k, k <> kind_of b -> tracks_of_kind k c' = tracks_of_kind k c)
  /\ tl (tracks_of_kind (kind_of b) c') = tl (tracks_of_kind (kind_of b) c).
Proof.
  intro c'. subst c'.
  destruct (first_of_kind_cases (kind_of b) c)
    as [E|(tracks & t & rest & Hs & Hk)].
  - rewrite (click_throws b c E). now repeat split.
  - destruct (click_effect b c tracks t rest Hs Hk) as [E1 _].
    unfold tracks_of_kind. rewrite E1, Hs. simpl.
    destruct (set_first_members (kind_of b) (negb (enabled t)) tracks)
      as [M1 M2].
    rewrite M1, M2. repeat split.
    + intros k Hne. now apply set_first_other.
    + now rewrite (set_first_kind _ _ _ _ _ Hk), Hk.
Qed.

(** X24. The two buttons do not interfere: a click on each, in either
    order, leaves the same page. *)
Theorem mic_and_cam_commute (c : Controls) :
  click ToggleMic (click ToggleCam c) = click ToggleCam (click ToggleMic c).
Proof.
  unfold click, toggle_mic_onclick, toggle_cam_onclick,
    getAudioTracks, getVideoTracks.
  destruct c as [[tracks|] mic cam]; cbn [stream toggle_mic toggle_cam fst snd];
    [|reflexivity].
  destruct (filter (fun t => kind t =? "audio") tracks) as [|a ra] eqn:Ea;
    destruct (filter (fun t => kind t =? "video") tracks) as [|v rv] eqn:Ev;
    cbn [stream toggle_mic toggle_cam fst snd];
    rewrite ?Ea, ?Ev; cbn [stream toggle_mic toggle_cam fst snd].
  - reflexivity.
  - rewrite set_first_other by discriminate. now rewrite Ea.
  - rewrite set_first_other by discriminate. now rewrite Ev.
  - rewrite !set_first_other by discriminate. rewrite Ea, Ev.
    cbn [stream toggle_mic toggle_cam fst snd].
    now rewrite set_first_swap by discriminate.
Qed.
